(** * ai-news-pipeline: the duplicate filter and row builder of [main.py]

    A shallow embedding of [src/main.py]: the values the script handles,
    the library calls it makes, [get_ai_summary] and [main], followed by
    the properties of the pipeline. *)

From Stdlib Require Import ZArith Ascii String List Lia.
From stdpp Require Import base decidable countable gmap strings list pretty.

Local Open Scope string_scope.
Local Open Scope Z_scope.

(** ** Python values

    The fields of an article come out of [response.json()]; the script
    only ever reads them with [dict.get], which yields [None] for a missing
    key and for a JSON [null] alike. *)

Inductive pyval : Type :=
  | PNone : pyval
  | PStr : string → pyval.

#[global] Instance pyval_eq_dec : EqDecision pyval.
Proof. solve_decision. Defined.

Definition pyval_to_option (v : pyval) : option string :=
  match v with PNone => None | PStr s => Some s end.

Definition pyval_of_option (o : option string) : pyval :=
  match o with None => PNone | Some s => PStr s end.

#[global] Instance pyval_countable : Countable pyval.
Proof.
  apply (inj_countable' pyval_to_option pyval_of_option).
  by intros [].
Defined.

(** [bool(v)]: [None] and the empty string are falsy. *)
Definition truthy (v : pyval) : bool :=
  match v with
  | PNone => false
  | PStr s => negb (String.eqb s "")
  end.

(** [f"{v}"] *)
Definition fmt (v : pyval) : string :=
  match v with
  | PNone => "None"
  | PStr s => s
  end.

(** An article is the [dict] decoded from one element of ["results"]. *)
Abbreviation Article := (gmap string pyval).

(** [article.get(k)] *)
Definition get (article : Article) (k : string) : pyval :=
  match article !! k with
  | Some v => v
  | None => PNone
  end.

(** [article.get(k, default)]: the default replaces a missing key only. *)
Definition get_default (article : Article) (k : string) (default : pyval) : pyval :=
  match article !! k with
  | Some v => v
  | None => default
  end.

(** ** Exceptions *)

Inductive exn : Type :=
  | RequestException : string → exn   (* requests.exceptions.RequestException *)
  | OtherException : string → exn.    (* any other subclass of Exception *)

Definition exn_str (e : exn) : string :=
  match e with RequestException m | OtherException m => m end.

Definition is_request_exception (e : exn) : bool :=
  match e with RequestException _ => true | OtherException _ => false end.

Inductive exc (A : Type) : Type :=
  | Ok : A → exc A
  | Raise : exn → exc A.
Arguments Ok {A} _.
Arguments Raise {A} _.

(** ** Characters and [str.strip] *)

(** [str.isspace] on the code points below 256. *)
Definition is_space (c : ascii) : bool :=
  let n := nat_of_ascii c in
  ((9 <=? n) && (n <=? 13) || (28 <=? n) && (n <=? 32)
   || (n =? 133) || (n =? 160))%nat.

Fixpoint lstrip (s : string) : string :=
  match s with
  | EmptyString => EmptyString
  | String c s' => if is_space c then lstrip s' else s
  end.

Fixpoint rstrip (s : string) : string :=
  match s with
  | EmptyString => EmptyString
  | String c s' =>
      match rstrip s' with
      | EmptyString => if is_space c then EmptyString else String c EmptyString
      | r => String c r
      end
  end.

(** [s.strip()] *)
Definition strip (s : string) : string := rstrip (lstrip s).

(** ** The fuzzy matcher: [thefuzz.fuzz.token_sort_ratio]

    The library is not part of the repository.  Its wrapper is modelled
    here as the library has it: a [None] on either side scores 0, both
    titles are normalised by [full_process], their tokens sorted and
    joined, and the resulting strings compared by [ratio], which scores
    equal strings 100 and an empty string against a non-empty one 0.  The
    percentage of two different non-empty strings is computed by the
    library's sequence matcher in floating point and stays a parameter. *)

Section Thefuzz.

Variable matcher_ratio : string → string → Z.

Definition is_word_char (c : ascii) : bool :=
  let n := nat_of_ascii c in
  ((48 <=? n) && (n <=? 57) || (65 <=? n) && (n <=? 90)
   || (97 <=? n) && (n <=? 122) || (n =? 95))%nat.

Definition lower (c : ascii) : ascii :=
  let n := nat_of_ascii c in
  if ((65 <=? n) && (n <=? 90))%nat then ascii_of_nat (n + 32) else c.

Fixpoint string_filter (p : ascii → bool) (s : string) : string :=
  match s with
  | EmptyString => EmptyString
  | String c s' => if p c then String c (string_filter p s') else string_filter p s'
  end.

Fixpoint string_map (f : ascii → ascii) (s : string) : string :=
  match s with
  | EmptyString => EmptyString
  | String c s' => String (f c) (string_map f s')
  end.

(** [force_ascii=True]: the characters 128..255 are dropped. *)
Definition ascii_only (s : string) : string :=
  string_filter (fun c => (nat_of_ascii c <? 128)%nat) s.

(** [utils.full_process]: non-word characters become blanks, then
    lower case, then [strip]. *)
Definition full_process (s : string) : string :=
  strip (string_map lower
           (string_map (fun c => if is_word_char c then c else " "%char)
              (ascii_only s))).

(** [s.split()]: the maximal runs of non-blank characters.  [cur] holds
    the characters of the token being read, last first. *)
Fixpoint split_go (cur : list ascii) (s : string) : list string :=
  let flush := match cur with
               | [] => []
               | _ => [string_of_list_ascii (rev cur)]
               end in
  match s with
  | EmptyString => flush
  | String c s' =>
      if is_space c then (flush ++ split_go [] s')%list
      else split_go (c :: cur) s'
  end.

Definition split (s : string) : list string := split_go [] s.

(** [sorted(tokens)] *)
Fixpoint insert_sorted (t : string) (ts : list string) : list string :=
  match ts with
  | [] => [t]
  | u :: us => if String.leb t u then t :: ts else u :: insert_sorted t us
  end.

Definition sorted (ts : list string) : list string :=
  foldr insert_sorted [] ts.

(** [" ".join(tokens)] *)
Fixpoint join (ts : list string) : string :=
  match ts with
  | [] => ""
  | [t] => t
  | t :: ts' => t ++ " " ++ join ts'
  end.

Definition process_and_sort (s : string) : string :=
  strip (join (sorted (split (full_process s)))).

Definition ratio (s1 s2 : string) : Z :=
  if String.eqb s1 s2 then 100
  else if String.eqb s1 "" || String.eqb s2 "" then 0
  else matcher_ratio s1 s2.

Definition token_sort_ratio (s1 s2 : pyval) : Z :=
  match s1, s2 with
  | PStr a, PStr b => ratio (process_and_sort a) (process_and_sort b)
  | _, _ => 0
  end.

End Thefuzz.

(** ** Printing and raising

    A computation prints lines and then either returns or raises. *)

Record io (A : Type) : Type := IO {
  printed : list string;
  outcome : exc A
}.
Arguments IO {A} _ _.
Arguments printed {A} _.
Arguments outcome {A} _.

#[global] Instance io_ret : MRet io := fun A a => IO [] (Ok a).

#[global] Instance io_bind : MBind io := fun A B k m =>
  match outcome m with
  | Ok a => IO (printed m ++ printed (k a))%list (outcome (k a))
  | Raise e => IO (printed m) (Raise e)
  end.

Definition print (line : string) : io unit := IO [line] (Ok tt).

Definition lift {A} (r : exc A) : io A := IO [] r.

(** [try: body  except Exception as e: handler(e)] around a printing
    computation. *)
Definition io_try {A} (body : io A) (handler : exn → io A) : io A :=
  match outcome body with
  | Ok a => body
  | Raise e => IO (printed body ++ printed (handler e))%list (outcome (handler e))
  end.

(** ** The collaborators of one run *)

(** The ["results"] entry of the decoded response: the key may be
    missing, hold [null], or hold the list of articles. *)
Inductive results_entry : Type :=
  | ResultsAbsent : results_entry
  | ResultsNull : results_entry
  | ResultsList : list Article → results_entry.

(** [response.json().get("results", [])]: the default covers a missing
    key only, a [null] comes out as [None]. *)
Definition get_results (response : results_entry) : option (list Article) :=
  match response with
  | ResultsAbsent => Some []
  | ResultsNull => None
  | ResultsList articles => Some articles
  end.

(** What one invocation of [main] meets outside the process.  The index
    passed to the summarisation backend and to the clock is the number of
    the loop iteration that asks. *)
Record Env : Type := {
  openai_api_key : pyval;                       (* openai.api_key *)
  SPREADSHEET_NAME : pyval;
  open_sheet : exc unit;                        (* service account, gc.open, sh.sheet1 *)
  requests_get : exc results_entry;             (* get, raise_for_status, json() *)
  chat_completions_create : nat → string → exc pyval;  (* ...choices[0].message.content *)
  utcnow_isoformat : nat → string               (* datetime.now(timezone.utc).isoformat() *)
}.

(** [content.strip()]: [None] has no such method. *)
Definition py_strip (content : pyval) : exc string :=
  match content with
  | PStr s => Ok (strip s)
  | PNone => Raise (OtherException "'NoneType' object has no attribute 'strip'")
  end.

Definition summary_prompt (article_title article_description : pyval) : string :=
  "Summarize the following news article in a single, insightful sentence. Title: '"
  ++ fmt article_title ++ "'. Description: '" ++ fmt article_description ++ "'".

Definition get_ai_summary (env : Env) (i : nat)
    (article_title article_description : pyval) : io string :=
  if negb (truthy article_description && truthy (openai_api_key env))
  then mret "Summary not available."
  else
    io_try
      (content ← lift (chat_completions_create env i
                          (summary_prompt article_title article_description));
       lift (py_strip content))
      (fun e =>
         _ ← print ("Error calling OpenAI API: " ++ exn_str e);
         mret "AI summary failed.").

(** ** The Ledger

    The spreadsheet client is not part of the repository.  The sheet is
    the list of its rows, each row the list of its cells; on a sheet that
    has been opened, reading a column and appending rows are taken to
    succeed. *)

Abbreviation Row := (list pyval).
Abbreviation Worksheet := (list (list pyval)).

Definition cell_text (v : pyval) : string :=
  match v with PNone => "" | PStr s => s end.

(** Modelled from the spec: [worksheet.col_values(n)], the Ledger's "read
    entire column N as list of strings".  Columns count from 1; a cell that
    is absent or holds [None] reads as the empty string. *)
Definition col_values (n : nat) (worksheet : Worksheet) : list string :=
  (fun row => cell_text (nth (n - 1) row PNone)) <$> worksheet.

(** Modelled from the spec: [worksheet.append_rows(rows)], the Ledger's
    "append rows": the rows are added after the existing ones, in order. *)
Definition append_rows (rows : list Row) (worksheet : Worksheet) : Worksheet :=
  worksheet ++ rows.

(** [set(worksheet.col_values(n))] *)
Definition col_set (n : nat) (worksheet : Worksheet) : gset pyval :=
  list_to_set (PStr <$> col_values n worksheet).

(** ** [main] *)

Definition SIMILARITY_THRESHOLD : Z := 50.

(** The variables the loop of [main] updates. *)
Record LoopState : Type := {
  existing_links : gset pyval;
  existing_titles : gset pyval;
  rows_to_add : list Row
}.

(** What a call of [main] leaves behind: the lines printed, whether it
    returned or raised, and the sheet. *)
Record Run : Type := {
  run_printed : list string;
  run_outcome : exc unit;
  run_sheet : Worksheet
}.

Section Main.

(** [thefuzz]'s sequence matcher, and [urlparse(link).netloc], which
    raises [ValueError] on some links (an unbalanced bracket in the
    authority, for one). *)
Variable matcher_ratio : string → string → Z.
Variable netloc : string → exc string.

(** The inner [for existing_title in existing_titles] loop: the score of
    the first known title that exceeds the threshold, where the loop
    breaks.  A set is visited in no particular order; whether a title
    over the threshold is found does not depend on it, only which score
    gets printed. *)
Fixpoint first_similar (title : pyval) (titles : list pyval) : option Z :=
  match titles with
  | [] => None
  | existing_title :: rest =>
      let similarity_score := token_sort_ratio matcher_ratio title existing_title in
      if SIMILARITY_THRESHOLD <? similarity_score
      then Some similarity_score
      else first_similar title rest
  end.

Definition favicon_url (domain : string) : string :=
  "https://www.google.com/s2/favicons?domain=" ++ domain ++ "&sz=64".

(** The row of an accepted article, once the summary and the network
    location of the link are there. *)
Definition build_row (env : Env) (i : nat) (article : Article)
    (ai_summary : string) (domain : string) : Row :=
  let source_link := get article "link" in
  let title := get article "title" in
  let timestamp := get_default article "pubDate" (PStr (utcnow_isoformat env i)) in
  [PStr ""; title; PStr ai_summary; get article "image_url";
   get article "source_id"; source_link; PStr (favicon_url domain);
   timestamp; PStr "Published"].

(** One iteration of [for article in reversed(articles)].  The accepting
    branch is reached with a non-empty string for the link only; when
    [urlparse] raises there, the exception leaves the loop before the row
    is built and before the known sets are updated. *)
Definition loop_body (env : Env) (i : nat) (st : LoopState)
    (article : Article) : io LoopState :=
  let source_link := get article "link" in
  let title := get article "title" in
  if truthy source_link && bool_decide (source_link ∉ existing_links st)
  then
    match first_similar title (elements (existing_titles st)) with
    | Some similarity_score =>
        _ ← print ("Skipping similar article: '" ++ fmt title
                    ++ "' (Score: " ++ pretty similarity_score ++ ")");
        mret st
    | None =>
        ai_summary ← get_ai_summary env i title (get article "description");
        domain ← lift (netloc (fmt source_link));
        mret {| existing_links := existing_links st ∪ {[source_link]};
                existing_titles := existing_titles st ∪ {[title]};
                rows_to_add := (rows_to_add st
                                ++ [build_row env i article ai_summary domain])%list |}
    end
  else mret st.

(** The two guards of the loop body taken together: the article gets
    a row exactly when both let it through. *)
Definition accepts (st : LoopState) (article : Article) : bool :=
  let source_link := get article "link" in
  let title := get article "title" in
  truthy source_link && bool_decide (source_link ∉ existing_links st)
  && bool_decide (first_similar title (elements (existing_titles st)) = None).

(** The state the accepting branch leaves. *)
Definition accept (st : LoopState) (article : Article) (row : Row) : LoopState :=
  {| existing_links := existing_links st ∪ {[get article "link"]};
     existing_titles := existing_titles st ∪ {[get article "title"]};
     rows_to_add := (rows_to_add st ++ [row])%list |}.

Fixpoint for_each (env : Env) (i : nat) (st : LoopState)
    (articles : list Article) : io LoopState :=
  match articles with
  | [] => mret st
  | article :: rest =>
      st' ← loop_body env i st article;
      for_each env (S i) st' rest
  end.

(** The state in which the loop starts. *)
Definition initial (worksheet : Worksheet) : LoopState :=
  {| existing_links := col_set 6 worksheet;
     existing_titles := col_set 2 worksheet;
     rows_to_add := [] |}.

(** The part of [main] after the fetch. *)
Definition process (env : Env) (worksheet : Worksheet)
    (articles : list Article) : io LoopState :=
  _ ← print ("Found " ++ pretty (length articles)
              ++ " articles. Processing and checking for duplicates...");
  for_each env 0 (initial worksheet) (reverse articles).

Definition main (env : Env) (worksheet : Worksheet) : Run :=
  let out0 := ["Starting news pipeline with your preferred query..."] in
  match open_sheet env with
  | Raise e =>
      {| run_printed := (out0 ++ ["Error connecting to Google Sheets: " +:+ exn_str e])%list;
         run_outcome := Ok tt;
         run_sheet := worksheet |}
  | Ok _ =>
      let out1 := (out0 ++ ["Connected to Google Sheet: " +:+ fmt (SPREADSHEET_NAME env);
                            "Fetching news from Newsdata.io..."])%list in
      match requests_get env with
      | Raise e =>
          if is_request_exception e
          then {| run_printed := (out1 ++ ["Error fetching from Newsdata.io API: " +:+ exn_str e])%list;
                  run_outcome := Ok tt;
                  run_sheet := worksheet |}
          else {| run_printed := out1;
                  run_outcome := Raise e;
                  run_sheet := worksheet |}
      | Ok response =>
          match get_results response with
          | None =>
              (* len(articles) *)
              {| run_printed := out1;
                 run_outcome := Raise (OtherException
                                         "object of type 'NoneType' has no len()");
                 run_sheet := worksheet |}
          | Some articles =>
              let loop := process env worksheet articles in
              match outcome loop with
              | Raise e =>
                  {| run_printed := (out1 ++ printed loop)%list;
                     run_outcome := Raise e;
                     run_sheet := worksheet |}
              | Ok st =>
                  match rows_to_add st with
                  | [] =>
                      {| run_printed := (out1 ++ printed loop
                                         ++ ["Process complete. No new articles to add."])%list;
                         run_outcome := Ok tt;
                         run_sheet := worksheet |}
                  | _ =>
                      {| run_printed := (out1 ++ printed loop
                                         ++ ["Process complete. Added "
                                             +:+ pretty (length (rows_to_add st))
                                             +:+ " new articles."])%list;
                         run_outcome := Ok tt;
                         run_sheet := append_rows (rows_to_add st) worksheet |}
                  end
              end
          end
      end
  end.

End Main.

(** The cells of a row that the next run reads back. *)
Definition row_title (row : Row) : pyval := nth 1 row PNone.
Definition row_link (row : Row) : pyval := nth 5 row PNone.

(** The summary [get_ai_summary] hands back, the empty string standing
    for a call that raised. *)
Definition summary_of (env : Env) (i : nat) (article : Article) : string :=
  match outcome (get_ai_summary env i (get article "title") (get article "description")) with
  | Ok s => s
  | Raise _ => ""
  end.

(** The loop without its printing: what [loop_body] and [for_each] return
    or raise, as shown by [loop_body_outcome] and [for_each_outcome]
    below. *)
Definition step (matcher_ratio : string → string → Z) (netloc : string → exc string)
    (env : Env) (i : nat) (st : LoopState) (article : Article) : exc LoopState :=
  if accepts matcher_ratio st article
  then match netloc (fmt (get article "link")) with
       | Ok domain =>
           Ok (accept st article
                 (build_row env i article (summary_of env i article) domain))
       | Raise e => Raise e
       end
  else Ok st.

Fixpoint steps (matcher_ratio : string → string → Z) (netloc : string → exc string)
    (env : Env) (i : nat) (st : LoopState) (articles : list Article) : exc LoopState :=
  match articles with
  | [] => Ok st
  | article :: rest =>
      match step matcher_ratio netloc env i st article with
      | Ok st' => steps matcher_ratio netloc env (S i) st' rest
      | Raise e => Raise e
      end
  end.

(** What the loop maintains about the rows gathered so far, given the
    links [L] and titles [T] read from the sheet. *)
Record dedup_inv (matcher_ratio : string → string → Z) (L T : gset pyval)
    (st : LoopState) : Prop := {
  inv_links : existing_links st = L ∪ list_to_set (row_link <$> rows_to_add st);
  inv_titles : existing_titles st = T ∪ list_to_set (row_title <$> rows_to_add st);
  inv_nodup : NoDup (row_link <$> rows_to_add st);
  inv_fresh : ∀ r, r ∈ rows_to_add st → (row_link r ∉ L) ∧ truthy (row_link r) = true;
  inv_known : ∀ r t, r ∈ rows_to_add st → t ∈ T →
    token_sort_ratio matcher_ratio (row_title r) t ≤ SIMILARITY_THRESHOLD;
  inv_pairs : ∀ i j r1 r2,
    rows_to_add st !! i = Some r1 → rows_to_add st !! j = Some r2 → (i < j)%nat →
    token_sort_ratio matcher_ratio (row_title r2) (row_title r1) ≤ SIMILARITY_THRESHOLD
}.

(** ** Stand-ins for running the pipeline on examples

    The two library functions [main] is parametrised by are given simple
    executable stand-ins, used below to evaluate the pipeline on concrete
    batches.  The theorems hold for every matcher and every [netloc]. *)

(** The longest common subsequence, one row of the table at a time. *)
Fixpoint lcs_row (x : ascii) (b : list ascii) (prev : list nat) (left : nat) : list nat :=
  match b, prev with
  | y :: b', diag :: ((up :: _) as prev') =>
      let cur := if Ascii.eqb x y then S diag else Nat.max up left in
      cur :: lcs_row x b' prev' cur
  | _, _ => []
  end.

Definition lcs (a b : list ascii) : nat :=
  List.last (fold_left (fun prev x => O :: lcs_row x b prev O) a
               (repeat O (S (length b)))) O.

(** The matcher's percentage [2 * lcs / (len a + len b)], rounded to the
    nearest integer (ties to even) in exact arithmetic. *)
Definition lcs_ratio (a b : string) : Z :=
  let la := list_ascii_of_string a in
  let lb := list_ascii_of_string b in
  let m := Z.of_nat (length la + length lb) in
  let n := 200 * Z.of_nat (lcs la lb) in
  let q := n / m in
  let r := n mod m in
  if m =? 0 then 100
  else if m <? 2 * r then q + 1
  else if 2 * r <? m then q
  else if Z.even q then q else q + 1.

(** The authority of a URL of the form [scheme://authority/rest]. *)
Fixpoint until_delimiter (s : string) : string :=
  match s with
  | EmptyString => EmptyString
  | String c s' =>
      if (Ascii.eqb c "/" || Ascii.eqb c "?" || Ascii.eqb c "#")%char
      then EmptyString
      else String c (until_delimiter s')
  end.

Fixpoint authority (url : string) : string :=
  match url with
  | String "/" (String "/" rest) => until_delimiter rest
  | String _ url' => authority url'
  | EmptyString => EmptyString
  end.

Fixpoint contains (c : ascii) (s : string) : bool :=
  match s with
  | EmptyString => false
  | String c' s' => Ascii.eqb c c' || contains c s'
  end.

(** As [urlsplit] does, an authority with one square bracket but not the
    other is refused. *)
Definition simple_netloc (url : string) : exc string :=
  let netloc := authority url in
  if xorb (contains "[" netloc) (contains "]" netloc)
  then Raise (OtherException "Invalid IPv6 URL")
  else Ok netloc.

(** A small world to run [main] in: a sheet with one row, and a batch of
    four candidates, newest first. *)
Definition ex_sheet : Worksheet :=
  [[PStr ""; PStr "Cats rule the internet"; PStr "Summary not available."; PNone;
    PStr "catnews"; PStr "https://old.net/0"; PStr "favicon"; PStr "2024-04-30";
    PStr "Published"]].

Definition ex_newest : Article :=
  {[ "link" := PStr "https://b.org/2";
     "title" := PStr "Quantum chip sets record";
     "description" := PStr "A new chip.";
     "pubDate" := PStr "2024-05-02 10:00:00" ]}.

Definition ex_no_link : Article :=
  {[ "title" := PStr "A story that lost its link" ]}.

Definition ex_no_title : Article :=
  {[ "link" := PStr "https://n.io/3";
     "title" := PNone;
     "description" := PStr "Untitled." ]}.

Definition ex_oldest : Article :=
  {[ "link" := PStr "https://a.com/1";
     "title" := PStr "OpenAI launches GPT-5";
     "description" := PStr "The model is out.";
     "source_id" := PStr "a" ]}.

Definition ex_batch : list Article :=
  [ex_newest; ex_no_link; ex_no_title; ex_oldest].

Definition ex_env : Env :=
  {| openai_api_key := PStr "sk-test";
     SPREADSHEET_NAME := PStr "AI News Feed";
     open_sheet := Ok tt;
     requests_get := Ok (ResultsList ex_batch);
     chat_completions_create := fun i _ =>
       if (i =? 0)%nat then Ok (PStr "  GPT-5 is here. ")
       else Raise (OtherException "rate limit");
     utcnow_isoformat := fun _ => "2024-05-03T00:00:00+00:00" |}.

(** The same response from the article source on a later day, with the
    summarisation backend switched off. *)
Definition ex_env_again : Env :=
  {| openai_api_key := PNone;
     SPREADSHEET_NAME := PStr "AI News Feed";
     open_sheet := Ok tt;
     requests_get := Ok (ResultsList ex_batch);
     chat_completions_create := fun _ _ => Raise (OtherException "no key");
     utcnow_isoformat := fun _ => "2024-05-04T00:00:00+00:00" |}.

Definition ex_env_offline : Env :=
  {| openai_api_key := PNone;
     SPREADSHEET_NAME := PStr "AI News Feed";
     open_sheet := Ok tt;
     requests_get := Raise (RequestException "503 Server Error");
     chat_completions_create := fun _ _ => Raise (OtherException "no key");
     utcnow_isoformat := fun _ => "2024-05-04T00:00:00+00:00" |}.

(** A reworded repeat of [ex_oldest] under a new link, a second article
    under the link of [ex_oldest], and a candidate with an empty title
    for a sheet that already has a row with an empty title. *)
Definition ex_reworded : Article :=
  {[ "link" := PStr "https://c.dev/4";
     "title" := PStr "GPT-5 launches from OpenAI" ]}.

Definition ex_same_link : Article :=
  {[ "link" := PStr "https://a.com/1";
     "title" := PStr "Markets rally on rate cut" ]}.

Definition ex_blank : Article :=
  {[ "link" := PStr "https://d.io/5"; "title" := PStr "" ]}.

Definition ex_sheet_blank : Worksheet :=
  [[PStr ""; PStr ""; PStr "Summary not available."; PNone;
    PStr "e"; PStr "https://e.net/9"; PStr "favicon"; PStr "2024-04-29";
    PStr "Published"]].

(** ** Around [main] *)

(** [openai.api_key] once the module is loaded: the key from the
    environment if it is set and not empty, the library's default [None]
    otherwise ([if OPENAI_API_KEY: openai.api_key = OPENAI_API_KEY]). *)
Definition configure_openai (OPENAI_API_KEY : pyval) : pyval :=
  if truthy OPENAI_API_KEY then OPENAI_API_KEY else PNone.

(** [main] called once per entry of [envs], each call on the sheet the
    call before it left. *)
Definition runs (matcher_ratio : string → string → Z) (netloc : string → exc string)
    (envs : list Env) (worksheet : Worksheet) : Worksheet :=
  foldl (fun sheet env => run_sheet (main matcher_ratio netloc env sheet))
    worksheet envs.

(** Two rows that agree in every cell but the summary and the
    timestamp. *)
Definition same_article_cells (r1 r2 : Row) : Prop :=
  length r1 = length r2
  ∧ ∀ k, k ≠ 2%nat → k ≠ 7%nat → r1 !! k = r2 !! k.

(** A fetch that fails with something other than a [RequestException], a
    batch of two candidates without titles, and a repeat of [ex_oldest]
    that shouts and shuffles its title. *)
Definition ex_env_broken : Env :=
  {| openai_api_key := PNone;
     SPREADSHEET_NAME := PStr "AI News Feed";
     open_sheet := Ok tt;
     requests_get := Raise (OtherException "'list' object has no attribute 'get'");
     chat_completions_create := fun _ _ => Raise (OtherException "no key");
     utcnow_isoformat := fun _ => "2024-05-04T00:00:00+00:00" |}.

Definition ex_no_title_too : Article :=
  {[ "link" := PStr "https://n.io/4"; "description" := PStr "Also untitled." ]}.

Definition ex_env_untitled : Env :=
  {| openai_api_key := configure_openai (PStr "");
     SPREADSHEET_NAME := PStr "AI News Feed";
     open_sheet := Ok tt;
     requests_get := Ok (ResultsList [ex_no_title_too; ex_no_title]);
     chat_completions_create := fun _ _ => Ok (PStr "unused");
     utcnow_isoformat := fun _ => "2024-05-05T00:00:00+00:00" |}.

Definition ex_shouted : Article :=
  {[ "link" := PStr "https://f.tv/6";
     "title" := PStr "GPT-5: openai LAUNCHES!" ]}.


Definition ex_bad_link : Article :=
  {[ "link" := PStr "http://[bad" ]}.

Definition ex_env_with (response : results_entry) : Env :=
  {| openai_api_key := PNone;
     SPREADSHEET_NAME := PStr "AI News Feed";
     open_sheet := Ok tt;
     requests_get := Ok response;
     chat_completions_create := fun _ _ => Raise (OtherException "no key");
     utcnow_isoformat := fun _ => "2024-05-06T00:00:00+00:00" |}.

(** The state the loop is in after the given articles, on the stand-ins
    (the state it started in, should it raise). *)
Definition ex_state (env : Env) (worksheet : Worksheet) (articles : list Article)
    : LoopState :=
  match steps lcs_ratio simple_netloc env 0 (initial worksheet) articles with
  | Ok st => st
  | Raise _ => initial worksheet
  end.

(** * Properties *)

Local Open Scope list_scope.

(** ** The summariser *)

Lemma io_bind_outcome {A B} (m : io A) (k : A → io B) a :
  outcome m = Ok a → outcome (m ≫= k) = outcome (k a).
Proof. intros H. unfold mbind, io_bind. by rewrite H. Qed.

Lemma get_ai_summary_unavailable env i title description :
  truthy description = false ∨ truthy (openai_api_key env) = false →
  get_ai_summary env i title description = IO [] (Ok "Summary not available.").
Proof.
  intros H. unfold get_ai_summary.
  destruct H as [-> | ->]; [done |].
  by rewrite andb_false_r.
Qed.

Lemma get_ai_summary_failed env i title description e :
  truthy description = true → truthy (openai_api_key env) = true →
  chat_completions_create env i (summary_prompt title description) = Raise e →
  get_ai_summary env i title description
  = IO ["Error calling OpenAI API: " +:+ exn_str e] (Ok "AI summary failed.").
Proof.
  intros Hd Hk Hc. unfold get_ai_summary. rewrite Hd, Hk. simpl.
  unfold io_try, lift, mbind, io_bind. simpl. by rewrite Hc.
Qed.

Lemma get_ai_summary_no_content env i title description :
  truthy description = true → truthy (openai_api_key env) = true →
  chat_completions_create env i (summary_prompt title description) = Ok PNone →
  outcome (get_ai_summary env i title description) = Ok "AI summary failed.".
Proof.
  intros Hd Hk Hc. unfold get_ai_summary. rewrite Hd, Hk. simpl.
  unfold io_try, lift, mbind, io_bind. simpl. by rewrite Hc.
Qed.

Lemma get_ai_summary_trimmed env i title description s :
  truthy description = true → truthy (openai_api_key env) = true →
  chat_completions_create env i (summary_prompt title description) = Ok (PStr s) →
  get_ai_summary env i title description = IO [] (Ok (strip s)).
Proof.
  intros Hd Hk Hc. unfold get_ai_summary. rewrite Hd, Hk. simpl.
  unfold io_try, lift, mbind, io_bind. simpl. by rewrite Hc.
Qed.

Lemma get_ai_summary_returns env i title description :
  ∃ s, outcome (get_ai_summary env i title description) = Ok s.
Proof.
  unfold get_ai_summary.
  destruct (negb _); [by eexists |].
  unfold io_try, lift, mbind, io_bind. simpl.
  destruct (chat_completions_create env i _) as [[|s]|e]; simpl; by eexists.
Qed.

Lemma summary_of_spec env i article :
  outcome (get_ai_summary env i (get article "title") (get article "description"))
  = Ok (summary_of env i article).
Proof.
  unfold summary_of.
  destruct (get_ai_summary_returns env i (get article "title") (get article "description"))
    as [s ->]. done.
Qed.

(** ** The matcher's guards *)

Lemma token_sort_ratio_none_l m t : token_sort_ratio m PNone t = 0.
Proof. done. Qed.

Lemma token_sort_ratio_none_r m t : token_sort_ratio m t PNone = 0.
Proof. by destruct t. Qed.

Lemma ratio_refl m s : ratio m s s = 100.
Proof. unfold ratio. by rewrite String.eqb_refl. Qed.

Lemma token_sort_ratio_refl m s : token_sort_ratio m (PStr s) (PStr s) = 100.
Proof. simpl. apply ratio_refl. Qed.

Lemma ratio_sym m s1 s2 :
  (∀ a b, m a b = m b a) → ratio m s1 s2 = ratio m s2 s1.
Proof.
  intros Hm. unfold ratio. rewrite (String.eqb_sym s2 s1), (orb_comm (String.eqb s2 "")).
  by rewrite Hm.
Qed.

Lemma token_sort_ratio_sym m t1 t2 :
  (∀ a b, m a b = m b a) → token_sort_ratio m t1 t2 = token_sort_ratio m t2 t1.
Proof.
  intros Hm. destruct t1, t2; simpl; [done..|]. by apply ratio_sym.
Qed.

Section MainFacts.

Variable matcher_ratio : string → string → Z.
Variable netloc : string → exc string.

Local Abbreviation score := (token_sort_ratio matcher_ratio).
Local Abbreviation first_similar := (first_similar matcher_ratio).
Local Abbreviation accepts := (accepts matcher_ratio).
Local Abbreviation loop_body := (loop_body matcher_ratio netloc).
Local Abbreviation for_each := (for_each matcher_ratio netloc).
Local Abbreviation main := (main matcher_ratio netloc).

(** *** The inner loop *)

Lemma first_similar_None title titles :
  first_similar title titles = None ↔
  ∀ t, t ∈ titles → score title t ≤ SIMILARITY_THRESHOLD.
Proof.
  induction titles as [|t0 titles IH]; simpl.
  - split; [intros _ t Ht; by apply not_elem_of_nil in Ht | done].
  - destruct (Z.ltb_spec SIMILARITY_THRESHOLD (score title t0)) as [Hlt|Hle].
    + split; [done |]. intros H. specialize (H t0 (list_elem_of_here _ _)). lia.
    + rewrite IH. split.
      * intros H t [->|Ht]%elem_of_cons; auto.
      * intros H t Ht. apply H. by right.
Qed.

Lemma first_similar_Some title titles :
  is_Some (first_similar title titles) ↔
  ∃ t, t ∈ titles ∧ SIMILARITY_THRESHOLD < score title t.
Proof.
  induction titles as [|t0 titles IH]; simpl.
  - split; [by intros [? ?] | intros (t & Ht & _); by apply not_elem_of_nil in Ht].
  - destruct (Z.ltb_spec SIMILARITY_THRESHOLD (score title t0)) as [Hlt|Hle].
    + split; [intros _; exists t0; split; [left | done] | by eexists].
    + rewrite IH. split.
      * intros (t & Ht & Hs). exists t. split; [by right | done].
      * intros (t & [->|Ht]%elem_of_cons & Hs); [lia |]. by exists t.
Qed.

Lemma first_similar_score title titles z :
  first_similar title titles = Some z → SIMILARITY_THRESHOLD < z.
Proof.
  induction titles as [|t0 titles IH]; simpl; [done |].
  destruct (Z.ltb_spec SIMILARITY_THRESHOLD (score title t0)); [|done].
  intros [= <-]. done.
Qed.

(** *** One iteration *)

Local Abbreviation step := (step matcher_ratio netloc).
Local Abbreviation steps := (steps matcher_ratio netloc).

Lemma loop_body_accepts env i st article :
  accepts st article = true →
  printed (loop_body env i st article)
  = printed (get_ai_summary env i (get article "title") (get article "description"))
  ∧ outcome (loop_body env i st article)
    = match netloc (fmt (get article "link")) with
      | Ok domain =>
          Ok (accept st article
                (build_row env i article (summary_of env i article) domain))
      | Raise e => Raise e
      end.
Proof.
  unfold accepts, loop_body. intros H.
  apply andb_true_iff in H as [H Hsim]. rewrite H.
  apply bool_decide_eq_true in Hsim. rewrite Hsim.
  pose proof (summary_of_spec env i article) as Hs.
  unfold mbind, io_bind, lift. rewrite Hs. simpl.
  destruct (netloc (fmt (get article "link"))) as [domain|e]; simpl.
  - by rewrite !app_nil_r.
  - by rewrite !app_nil_r.
Qed.

Lemma loop_body_rejects env i st article :
  accepts st article = false →
  outcome (loop_body env i st article) = Ok st.
Proof.
  unfold accepts, loop_body. intros H.
  destruct (truthy _ && bool_decide _); [|done].
  simpl in H. apply bool_decide_eq_false in H.
  destruct (first_similar _ _) as [z|]; [done | by destruct H].
Qed.

Lemma loop_body_outcome env i st article :
  outcome (loop_body env i st article) = step env i st article.
Proof.
  unfold step. destruct (accepts st article) eqn:H.
  - by apply loop_body_accepts.
  - by apply loop_body_rejects.
Qed.

Lemma for_each_outcome env i st articles :
  outcome (for_each env i st articles) = steps env i st articles.
Proof.
  revert i st. induction articles as [|a rest IH]; intros i st; simpl; [done |].
  unfold mbind, io_bind. rewrite loop_body_outcome.
  destruct (step env i st a) as [st'|e]; simpl; [apply IH | done].
Qed.

Lemma steps_app env i st l1 l2 :
  steps env i st (l1 ++ l2)
  = match steps env i st l1 with
    | Ok st1 => steps env (i + length l1) st1 l2
    | Raise e => Raise e
    end.
Proof.
  revert i st. induction l1 as [|a l1 IH]; intros i st; simpl.
  - by rewrite Nat.add_0_r.
  - destruct (step env i st a) as [st'|e]; [|done].
    rewrite IH. by rewrite Nat.add_succ_r.
Qed.

(** A step returns in two ways only. *)
Lemma step_Ok env i st article st' :
  step env i st article = Ok st' →
  (accepts st article = false ∧ st' = st)
  ∨ (accepts st article = true
     ∧ ∃ domain, netloc (fmt (get article "link")) = Ok domain
                 ∧ st' = accept st article
                           (build_row env i article (summary_of env i article) domain)).
Proof.
  unfold step. destruct (accepts st article); [|intros [= <-]; by left].
  destruct (netloc _) as [domain|e]; [|done].
  intros [= <-]. right. split; [done |]. by exists domain.
Qed.

(** *** What acceptance means *)

Lemma accepts_true st article :
  accepts st article = true ↔
  truthy (get article "link") = true
  ∧ (get article "link" ∉ existing_links st)
  ∧ ∀ t, t ∈ existing_titles st →
      score (get article "title") t ≤ SIMILARITY_THRESHOLD.
Proof.
  unfold accepts. rewrite !andb_true_iff, !bool_decide_eq_true, first_similar_None.
  setoid_rewrite elem_of_elements. tauto.
Qed.

Lemma accepts_false st article :
  accepts st article = false ↔
  truthy (get article "link") = false
  ∨ get article "link" ∈ existing_links st
  ∨ ∃ t, t ∈ existing_titles st
         ∧ SIMILARITY_THRESHOLD < score (get article "title") t.
Proof.
  rewrite <-not_true_iff_false, accepts_true. split.
  - intros H. destruct (truthy (get article "link")) eqn:Ht; [|by left].
    destruct (decide (get article "link" ∈ existing_links st)) as [|Hl]; [by right; left |].
    right; right.
    destruct (first_similar (get article "title") (elements (existing_titles st))) eqn:Hf.
    + assert (Hs : is_Some (first_similar (get article "title")
                              (elements (existing_titles st)))) by by eexists.
      apply first_similar_Some in Hs as (t & Ht' & Hlt).
      exists t. by rewrite <-elem_of_elements.
    + destruct H. split_and!; [done..|].
      intros t Ht'. apply first_similar_None with (t := t) in Hf; [done |].
      by apply elem_of_elements.
  - intros [H | [H | (t & Ht & Hlt)]] (H1 & H2 & H3).
    + congruence.
    + done.
    + specialize (H3 t Ht). lia.
Qed.

Lemma row_link_build_row env i article s d :
  row_link (build_row env i article s d) = get article "link".
Proof. done. Qed.

Lemma row_title_build_row env i article s d :
  row_title (build_row env i article s d) = get article "title".
Proof. done. Qed.

(** *** The invariant *)

Lemma dedup_inv_initial worksheet :
  dedup_inv matcher_ratio (col_set 6 worksheet) (col_set 2 worksheet)
    (initial worksheet).
Proof.
  split; simpl.
  - by rewrite union_empty_r_L.
  - by rewrite union_empty_r_L.
  - constructor.
  - intros r Hr. by apply not_elem_of_nil in Hr.
  - intros r t Hr. by apply not_elem_of_nil in Hr.
  - intros i j r1 r2 Hr. done.
Qed.

Lemma dedup_inv_accept L T st article row :
  row_link row = get article "link" →
  row_title row = get article "title" →
  accepts st article = true →
  dedup_inv matcher_ratio L T st →
  dedup_inv matcher_ratio L T (accept st article row).
Proof.
  intros Hrl Hrt Hacc [Hl Ht Hnd Hfr Hkn Hpr].
  apply accepts_true in Hacc as (Htr & Hnew & Hsim).
  split; simpl.
  - rewrite fmap_app, list_to_set_app_L, Hl. simpl. rewrite Hrl.
    by rewrite union_empty_r_L, (assoc_L (∪)).
  - rewrite fmap_app, list_to_set_app_L, Ht. simpl. rewrite Hrt.
    by rewrite union_empty_r_L, (assoc_L (∪)).
  - rewrite fmap_app. apply NoDup_app. split_and!; [done | | ].
    + intros x Hx [->|Hx']%elem_of_cons; [| by apply not_elem_of_nil in Hx'].
      apply Hnew. rewrite Hl, <-Hrl. apply elem_of_union_r.
      by apply elem_of_list_to_set.
    + simpl. apply NoDup_singleton.
  - intros r [Hr | ->%list_elem_of_singleton]%elem_of_app; [by apply Hfr |].
    rewrite Hrl. split; [|done].
    intros HL. apply Hnew. rewrite Hl. by apply elem_of_union_l.
  - intros r t [Hr | ->%list_elem_of_singleton]%elem_of_app HT; [by apply Hkn |].
    rewrite Hrt. apply Hsim. rewrite Ht. by apply elem_of_union_l.
  - intros j k r1 r2 H1 H2 Hjk.
    apply lookup_snoc_Some in H2 as [[Hk H2] | [Hk <-]].
    + rewrite lookup_app_l in H1 by lia. by eapply Hpr.
    + rewrite lookup_app_l in H1 by lia.
      rewrite Hrt. apply Hsim. rewrite Ht.
      apply elem_of_union_r, elem_of_list_to_set, list_elem_of_fmap.
      exists r1. split; [done |]. by eapply list_elem_of_lookup_2.
Qed.

Lemma dedup_inv_step L T env i st article st' :
  step env i st article = Ok st' →
  dedup_inv matcher_ratio L T st →
  dedup_inv matcher_ratio L T st'.
Proof.
  intros [[_ ->] | (Hacc & domain & _ & ->)]%step_Ok Hinv; [done |].
  by apply dedup_inv_accept.
Qed.

Lemma dedup_inv_steps L T env i st articles st' :
  steps env i st articles = Ok st' →
  dedup_inv matcher_ratio L T st →
  dedup_inv matcher_ratio L T st'.
Proof.
  revert i st. induction articles as [|a rest IH]; intros i st Hst Hinv; simpl in Hst.
  - by injection Hst as <-.
  - destruct (step env i st a) as [st1|e] eqn:Hstep; [|done].
    eapply IH; [done |]. by eapply dedup_inv_step.
Qed.

(** *** Rows are only ever added at the end *)

Lemma accept_neq st article row : accept st article row ≠ st.
Proof.
  intros H. apply (f_equal (fun s => length (rows_to_add s))) in H.
  simpl in H. rewrite length_app in H. simpl in H. lia.
Qed.

Lemma step_rows env i st article st' :
  step env i st article = Ok st' →
  ∃ more, rows_to_add st' = rows_to_add st ++ more.
Proof.
  intros [[_ ->] | (_ & domain & _ & ->)]%step_Ok.
  - exists []. by rewrite app_nil_r.
  - by eexists.
Qed.

Lemma steps_rows env i st articles st' :
  steps env i st articles = Ok st' →
  ∃ more, rows_to_add st' = rows_to_add st ++ more.
Proof.
  revert i st. induction articles as [|a rest IH]; intros i st Hst; simpl in Hst.
  - injection Hst as <-. exists []. by rewrite app_nil_r.
  - destruct (step env i st a) as [st1|e] eqn:Hstep; [|done].
    destruct (IH _ _ Hst) as [m2 ->].
    destruct (step_rows _ _ _ _ _ Hstep) as [m1 ->].
    exists (m1 ++ m2). by rewrite app_assoc.
Qed.

(** *** The ways a run can go *)

Lemma process_outcome env worksheet articles :
  outcome (process matcher_ratio netloc env worksheet articles)
  = steps env 0 (initial worksheet) (reverse articles).
Proof.
  unfold process, print, mbind, io_bind. simpl. apply for_each_outcome.
Qed.

Lemma main_sheet_ok env worksheet u response articles st :
  open_sheet env = Ok u → requests_get env = Ok response →
  get_results response = Some articles →
  steps env 0 (initial worksheet) (reverse articles) = Ok st →
  run_outcome (main env worksheet) = Ok tt
  ∧ run_sheet (main env worksheet) = worksheet ++ rows_to_add st.
Proof.
  intros Ho Hf Hr Hst. unfold main. rewrite Ho, Hf, Hr, process_outcome, Hst.
  destruct (rows_to_add st) as [|r rs]; simpl; [by rewrite app_nil_r | done].
Qed.

Lemma main_loop_raises env worksheet u response articles e :
  open_sheet env = Ok u → requests_get env = Ok response →
  get_results response = Some articles →
  steps env 0 (initial worksheet) (reverse articles) = Raise e →
  run_outcome (main env worksheet) = Raise e
  ∧ run_sheet (main env worksheet) = worksheet.
Proof.
  intros Ho Hf Hr Hst. unfold main. by rewrite Ho, Hf, Hr, process_outcome, Hst.
Qed.

Lemma main_null_results env worksheet u response :
  open_sheet env = Ok u → requests_get env = Ok response →
  get_results response = None →
  run_outcome (main env worksheet)
  = Raise (OtherException "object of type 'NoneType' has no len()")
  ∧ run_sheet (main env worksheet) = worksheet.
Proof. intros Ho Hf Hr. unfold main. by rewrite Ho, Hf, Hr. Qed.

(** Either the sheet is left as it was, or the run got through the loop
    and appended the rows gathered there. *)
Lemma main_cases env worksheet :
  run_sheet (main env worksheet) = worksheet
  ∨ ∃ u response articles st,
      open_sheet env = Ok u ∧ requests_get env = Ok response
      ∧ get_results response = Some articles
      ∧ steps env 0 (initial worksheet) (reverse articles) = Ok st
      ∧ run_outcome (main env worksheet) = Ok tt
      ∧ run_sheet (main env worksheet) = worksheet ++ rows_to_add st.
Proof.
  destruct (open_sheet env) as [u|e] eqn:Ho; cycle 1.
  { left. unfold main. by rewrite Ho. }
  destruct (requests_get env) as [response|e] eqn:Hf; cycle 1.
  { left. unfold main. rewrite Ho, Hf. by destruct (is_request_exception e). }
  destruct (get_results response) as [articles|] eqn:Hr; cycle 1.
  { left. by eapply main_null_results. }
  destruct (steps env 0 (initial worksheet) (reverse articles)) as [st|e] eqn:Hst.
  - right. exists u, response, articles, st. split_and!; try done.
    + by eapply main_sheet_ok.
    + by eapply main_sheet_ok.
  - left. by eapply main_loop_raises.
Qed.

Lemma main_sheet env worksheet :
  ∃ st, dedup_inv matcher_ratio (col_set 6 worksheet) (col_set 2 worksheet) st
        ∧ run_sheet (main env worksheet) = worksheet ++ rows_to_add st.
Proof.
  destruct (main_cases env worksheet)
    as [Hs | (u & response & articles & st & _ & _ & _ & Hst & _ & Hs)].
  - exists (initial worksheet). split; [apply dedup_inv_initial |].
    simpl. by rewrite app_nil_r.
  - exists st. split; [|done].
    eapply dedup_inv_steps; [done | apply dedup_inv_initial].
Qed.

Lemma elem_of_col_set n worksheet v :
  v ∈ col_set n worksheet ↔ ∃ s, v = PStr s ∧ s ∈ col_values n worksheet.
Proof.
  unfold col_set. rewrite elem_of_list_to_set, list_elem_of_fmap. done.
Qed.

(** *** The duplicate filter *)

(** C1. A candidate whose link is present and not yet known is rejected
    (the iteration returns the loop state as it found it) exactly when
    some title of the known-titles set scores strictly more than the
    threshold of 50 against the candidate's title.  Consequently, in the
    batch of rows a run appends, every row scores at most 50 against each
    row accepted before it (the score being taken as the filter takes it,
    the later title first; in either order when the matcher is
    symmetric), and at most 50 against every title the sheet held at the
    start of the run. *)
Theorem similarity_gate env worksheet :
  (∀ i st article,
     truthy (get article "link") = true →
     get article "link" ∉ existing_links st →
     (outcome (loop_body env i st article) = Ok st
      ↔ ∃ t, t ∈ existing_titles st
             ∧ SIMILARITY_THRESHOLD < score (get article "title") t))
  ∧ ∃ rows,
      run_sheet (main env worksheet) = worksheet ++ rows
      ∧ (∀ j k r1 r2, rows !! j = Some r1 → rows !! k = Some r2 → (j < k)%nat →
           score (row_title r2) (row_title r1) ≤ 50)
      ∧ ((∀ a b, matcher_ratio a b = matcher_ratio b a) →
         ∀ j k r1 r2, rows !! j = Some r1 → rows !! k = Some r2 → j ≠ k →
           score (row_title r1) (row_title r2) ≤ 50)
      ∧ (∀ r t, r ∈ rows → t ∈ col_values 2 worksheet →
           score (row_title r) (PStr t) ≤ 50).
Proof.
  split.
  - intros i st article Htr Hnew. rewrite loop_body_outcome. unfold step.
    destruct (accepts st article) eqn:Hacc.
    + apply accepts_true in Hacc as (_ & _ & Hsim). split.
      * destruct (netloc _) as [domain|e]; [|done].
        intros [= H]. by apply accept_neq in H.
      * intros (t & Ht & Hlt). specialize (Hsim t Ht). lia.
    + apply accepts_false in Hacc as [H | [H | H]]; [congruence | done |].
      by split.
  - destruct (main_sheet env worksheet) as (st & [_ _ _ _ Hkn Hpr] & Hsheet).
    exists (rows_to_add st). split_and!; [done | exact Hpr | |].
    + intros Hsym j k r1 r2 H1 H2 Hjk.
      destruct (Nat.lt_total j k) as [Hlt | [-> | Hgt]]; [| done |].
      * rewrite (token_sort_ratio_sym _ _ _ Hsym). by eapply Hpr.
      * by eapply Hpr.
    + intros r t Hr Ht. apply Hkn; [done |].
      apply elem_of_col_set. by exists t.
Qed.

(** C2. The rows a run appends carry pairwise different links, none of
    which occurs in the link column (column 6) of the sheet the run
    started from.  An accepted link is in the known-links set as soon as
    its iteration ends, so a repeat later in the batch fails the link
    guard; the iteration of a candidate that passes both guards ends
    unless [urlparse] raises on its link, and then the exception is what
    it raises. *)
Theorem appended_links_distinct env worksheet :
  (∃ rows,
     run_sheet (main env worksheet) = worksheet ++ rows
     ∧ NoDup (row_link <$> rows)
     ∧ ∀ r l, r ∈ rows → l ∈ col_values 6 worksheet → row_link r ≠ PStr l)
  ∧ ∀ i st article, accepts st article = true →
      (∀ domain, netloc (fmt (get article "link")) = Ok domain →
         ∃ st', outcome (loop_body env i st article) = Ok st'
                ∧ get article "link" ∈ existing_links st'
                ∧ ∀ later, get later "link" = get article "link" →
                    accepts st' later = false)
      ∧ (∀ st', outcome (loop_body env i st article) = Ok st' →
           get article "link" ∈ existing_links st'
           ∧ ∀ later, get later "link" = get article "link" →
               accepts st' later = false)
      ∧ (∀ e, netloc (fmt (get article "link")) = Raise e →
           outcome (loop_body env i st article) = Raise e).
Proof.
  split.
  - destruct (main_sheet env worksheet) as (st & [_ _ Hnd Hfr _ _] & Hsheet).
    exists (rows_to_add st). split_and!; [done..|].
    intros r l Hr Hl Heq. destruct (Hfr r Hr) as [Hnot _]. apply Hnot.
    apply elem_of_col_set. by exists l.
  - intros i st article Hacc.
    destruct (loop_body_accepts env i st article Hacc) as [_ Hout].
    assert (Hin : ∀ row, get article "link" ∈ existing_links (accept st article row)).
    { intros row. simpl. apply elem_of_union_r. by apply elem_of_singleton. }
    assert (Hlater : ∀ row later, get later "link" = get article "link" →
              accepts (accept st article row) later = false).
    { intros row later Heq. apply accepts_false. right; left. rewrite Heq. apply Hin. }
    split_and!.
    + intros domain Hd. rewrite Hd in Hout. eexists. split; [exact Hout |].
      split; [apply Hin | apply Hlater].
    + intros st' Hst'. rewrite Hout in Hst'.
      destruct (netloc _) as [domain|e]; [|done]. injection Hst' as <-.
      split; [apply Hin | apply Hlater].
    + intros e He. by rewrite He in Hout.
Qed.

(** C5. A candidate whose link is missing, null or empty is dropped at
    the first guard whatever its title: the iteration prints nothing and
    returns the loop state (known links, known titles, rows gathered)
    unchanged. *)
Theorem missing_link_rejected env i st article :
  article !! "link" = None ∨ article !! "link" = Some PNone
  ∨ article !! "link" = Some (PStr "") →
  loop_body env i st article = IO [] (Ok st).
Proof.
  intros H. unfold loop_body, get.
  destruct H as [-> | [-> | ->]]; done.
Qed.

(** *** Order of the batch *)

Lemma steps_app_Ok env i st l1 l2 st' :
  steps env i st (l1 ++ l2) = Ok st' →
  ∃ st1, steps env i st l1 = Ok st1 ∧ steps env (i + length l1) st1 l2 = Ok st'.
Proof.
  rewrite steps_app. destruct (steps env i st l1) as [st1|e]; [|done].
  intros H. by exists st1.
Qed.

Lemma rows_through env i st l1 article l2 st1 st' :
  steps env i st l1 = Ok st1 →
  accepts st1 article = true →
  steps env i st (l1 ++ article :: l2) = Ok st' →
  ∃ domain r1 r3,
    netloc (fmt (get article "link")) = Ok domain
    ∧ rows_to_add st1 = rows_to_add st ++ r1
    ∧ rows_to_add st'
      = rows_to_add st ++ r1
          ++ [build_row env (i + length l1) article
                (summary_of env (i + length l1) article) domain] ++ r3.
Proof.
  intros Hst1 Hacc Hst'.
  apply steps_app_Ok in Hst' as (st1' & Hst1' & Hst'). rewrite Hst1 in Hst1'.
  injection Hst1' as <-. simpl in Hst'.
  destruct (step env (i + length l1) st1 article) as [st2|e] eqn:Hstep; [|done].
  apply step_Ok in Hstep as [[Hrej _] | (_ & domain & Hd & ->)]; [congruence |].
  destruct (steps_rows _ _ _ _ _ Hst1) as [r1 Hr1].
  destruct (steps_rows _ _ _ _ _ Hst') as [r3 Hr3].
  exists domain, r1, r3. split_and!; [done..|].
  rewrite Hr3. simpl. rewrite Hr1. by rewrite <-!app_assoc.
Qed.

Lemma main_returns_steps env worksheet u response articles :
  open_sheet env = Ok u → requests_get env = Ok response →
  get_results response = Some articles →
  run_outcome (main env worksheet) = Ok tt →
  ∃ st, steps env 0 (initial worksheet) (reverse articles) = Ok st
        ∧ run_sheet (main env worksheet) = worksheet ++ rows_to_add st.
Proof.
  intros Ho Hf Hr Hout.
  destruct (steps env 0 (initial worksheet) (reverse articles)) as [st|e] eqn:Hst.
  - exists st. split; [done |]. by eapply main_sheet_ok.
  - destruct (main_loop_raises env worksheet u response articles e) as [H _]; try done.
    congruence.
Qed.

(** C3. The loop runs over the reversed input.  When the batch arrives
    as [pre ++ B :: mid ++ A :: post] (newest first, so [A] is older than
    [B]), both [A] and [B] pass the filter in the states the loop has
    reached when it gets to them, and the run returns (so that its batch
    is appended), the rows appended to the sheet list [A]'s row before
    [B]'s row. *)
Theorem oldest_first env worksheet u pre B mid A post stA stB :
  open_sheet env = Ok u →
  requests_get env = Ok (ResultsList (pre ++ B :: mid ++ A :: post)) →
  run_outcome (main env worksheet) = Ok tt →
  outcome (for_each env 0 (initial worksheet) (reverse post)) = Ok stA →
  accepts stA A = true →
  outcome (for_each env 0 (initial worksheet) (reverse (mid ++ A :: post))) = Ok stB →
  accepts stB B = true →
  ∃ r1 r2 r3 sA sB dA dB,
    netloc (fmt (get A "link")) = Ok dA
    ∧ netloc (fmt (get B "link")) = Ok dB
    ∧ run_sheet (main env worksheet)
      = worksheet ++ r1 ++ [build_row env (length post) A sA dA]
          ++ r2 ++ [build_row env (length post + 1 + length mid) B sB dB] ++ r3.
Proof.
  intros Ho Hf Hout HstA HaccA HstB HaccB.
  rewrite for_each_outcome in HstA, HstB.
  destruct (main_returns_steps env worksheet u _ _ Ho Hf eq_refl Hout) as (st & Hst & ->).
  assert (Hrev : reverse (mid ++ A :: post) = reverse post ++ A :: reverse mid).
  { by rewrite reverse_app, reverse_cons, <-app_assoc. }
  rewrite reverse_app, reverse_cons, <-app_assoc in Hst. simpl in Hst.
  destruct (rows_through env 0 (initial worksheet) _ B (reverse pre) stB st HstB HaccB Hst)
    as (dB & rB & r3 & HdB & HrB & ->).
  rewrite Hrev in HstB.
  destruct (rows_through env 0 (initial worksheet) _ A (reverse mid) stA stB HstA HaccA HstB)
    as (dA & r1 & r2 & HdA & _ & HrA).
  rewrite HrA in HrB. simpl in HrB. subst rB.
  exists r1, r2, r3,
    (summary_of env (length post) A),
    (summary_of env (length post + 1 + length mid) B), dA, dB.
  split_and!; [done..|].
  simpl. rewrite Hrev, length_app, !length_reverse. simpl. rewrite length_reverse.
  replace (length post + S (length mid))%nat
    with (length post + 1 + length mid)%nat by lia.
  rewrite <-!app_assoc. simpl. reflexivity.
Qed.

(** *** What the filter does not look at *)

Lemma build_row_same_cells env1 env2 i article s1 s2 domain :
  same_article_cells (build_row env1 i article s1 domain)
    (build_row env2 i article s2 domain).
Proof.
  split; [done |]. intros k H2 H7.
  do 9 (destruct k as [|k]; [done || by simpl |]). done.
Qed.

Lemma accepts_same_sets st1 st2 article :
  existing_links st1 = existing_links st2 →
  existing_titles st1 = existing_titles st2 →
  accepts st1 article = accepts st2 article.
Proof. intros Hl Ht. unfold accepts. by rewrite Hl, Ht. Qed.

(** Two loops over the same articles, from states with the same known
    sets, raise together or return together, whatever the key, the
    backend and the clock of either. *)
Lemma steps_same_cells env1 env2 i st1 st2 articles :
  existing_links st1 = existing_links st2 →
  existing_titles st1 = existing_titles st2 →
  Forall2 same_article_cells (rows_to_add st1) (rows_to_add st2) →
  match steps env1 i st1 articles, steps env2 i st2 articles with
  | Ok st1', Ok st2' =>
      existing_links st1' = existing_links st2'
      ∧ existing_titles st1' = existing_titles st2'
      ∧ Forall2 same_article_cells (rows_to_add st1') (rows_to_add st2')
  | Raise e1, Raise e2 => e1 = e2
  | _, _ => False
  end.
Proof.
  revert i st1 st2. induction articles as [|a rest IH]; intros i st1 st2 Hl Ht Hr; simpl.
  - done.
  - unfold step. rewrite (accepts_same_sets st1 st2 a Hl Ht).
    destruct (accepts st2 a); [|by apply IH].
    destruct (netloc (fmt (get a "link"))) as [domain|e]; [|done].
    apply IH; simpl.
    + by rewrite Hl.
    + by rewrite Ht.
    + apply Forall2_app; [done |]. constructor; [|constructor].
      apply build_row_same_cells.
Qed.

Lemma same_article_cells_refl : ∀ rows : list Row, Forall2 same_article_cells rows rows.
Proof. intros rows. apply Forall_Forall2_diag, Forall_forall. by intros r _. Qed.

(** *** Running twice *)

Lemma step_mono env i st article st' :
  step env i st article = Ok st' →
  existing_links st ⊆ existing_links st'
  ∧ existing_titles st ⊆ existing_titles st'.
Proof.
  intros [[_ ->] | (_ & domain & _ & ->)]%step_Ok; [done |].
  simpl. split; apply union_subseteq_l.
Qed.

Lemma steps_mono env i st articles st' :
  steps env i st articles = Ok st' →
  existing_links st ⊆ existing_links st'
  ∧ existing_titles st ⊆ existing_titles st'.
Proof.
  revert i st. induction articles as [|a rest IH]; intros i st Hst; simpl in Hst.
  - by injection Hst as <-.
  - destruct (step env i st a) as [st1|e] eqn:Hstep; [|done].
    destruct (IH _ _ Hst) as [H1 H2].
    destruct (step_mono _ _ _ _ _ Hstep) as [H3 H4].
    split; etrans; eauto.
Qed.

Lemma accepts_false_mono st st' article :
  existing_links st ⊆ existing_links st' →
  existing_titles st ⊆ existing_titles st' →
  accepts st article = false → accepts st' article = false.
Proof.
  intros Hl Ht. rewrite !accepts_false.
  intros [H | [H | (t & H & Hlt)]]; [by left | right; left; by apply Hl |].
  right; right. exists t. split; [by apply Ht | done].
Qed.

(** Once the loop is through, none of its candidates would pass again. *)
Lemma steps_blocked env i st articles st' article :
  steps env i st articles = Ok st' →
  article ∈ articles → accepts st' article = false.
Proof.
  revert i st. induction articles as [|a rest IH]; intros i st Hst Hin.
  - by apply not_elem_of_nil in Hin.
  - simpl in Hst. destruct (step env i st a) as [st1|e] eqn:Hstep; [|done].
    apply elem_of_cons in Hin as [-> | Hin]; [|by eapply IH].
    destruct (steps_mono _ _ _ _ _ Hst) as [Hl Ht].
    apply (accepts_false_mono st1); [done..|].
    apply step_Ok in Hstep as [[Hrej ->] | (_ & domain & _ & ->)]; [done |].
    apply accepts_false. right; left. simpl.
    apply elem_of_union_r. by apply elem_of_singleton.
Qed.

Lemma steps_all_rejected env i st articles :
  (∀ a, a ∈ articles → accepts st a = false) →
  steps env i st articles = Ok st.
Proof.
  revert i. induction articles as [|a rest IH]; intros i H; simpl; [done |].
  unfold step. rewrite (H a) by apply list_elem_of_here.
  apply IH. intros b Hb. apply H. by right.
Qed.

Lemma col_set_app n w1 w2 :
  col_set n (w1 ++ w2) = col_set n w1 ∪ col_set n w2.
Proof.
  unfold col_set, col_values. by rewrite !fmap_app, list_to_set_app_L.
Qed.

Lemma truthy_PStr v : truthy v = true → v = PStr (cell_text v).
Proof. by destruct v. Qed.

(** The link of an appended row is read back as it was written. *)
Lemma row_link_read_back rows r :
  r ∈ rows → truthy (row_link r) = true → row_link r ∈ col_set 6 rows.
Proof.
  intros Hr Htr. apply elem_of_col_set. exists (cell_text (row_link r)).
  split; [by apply truthy_PStr |].
  unfold col_values. apply list_elem_of_fmap. by exists r.
Qed.

Lemma row_title_read_back rows r :
  r ∈ rows → PStr (cell_text (row_title r)) ∈ col_set 2 rows.
Proof.
  intros Hr. apply elem_of_col_set. eexists. split; [done |].
  unfold col_values. apply list_elem_of_fmap. by exists r.
Qed.

(** The state a second run starts from blocks whatever the state the
    first run ended in blocks. *)
Lemma blocked_after_append worksheet st article :
  dedup_inv matcher_ratio (col_set 6 worksheet) (col_set 2 worksheet) st →
  accepts st article = false →
  accepts (initial (worksheet ++ rows_to_add st)) article = false.
Proof.
  intros [Hl Ht _ Hfr _ _]. rewrite !accepts_false. simpl. rewrite !col_set_app.
  intros [H | [H | (t & H & Hlt)]]; [by left | right; left | right; right].
  - rewrite Hl in H. apply elem_of_union in H as [H | H]; [by apply elem_of_union_l |].
    apply elem_of_union_r.
    apply elem_of_list_to_set, list_elem_of_fmap in H as (r & -> & Hr).
    apply row_link_read_back; [done |]. by apply Hfr.
  - destruct t as [|s].
    { rewrite token_sort_ratio_none_r in Hlt. unfold SIMILARITY_THRESHOLD in Hlt. lia. }
    exists (PStr s). split; [|done].
    rewrite Ht in H. apply elem_of_union in H as [H | H]; [by apply elem_of_union_l |].
    apply elem_of_union_r.
    apply elem_of_list_to_set, list_elem_of_fmap in H as (r & Heq & Hr).
    replace (PStr s) with (PStr (cell_text (row_title r))) by by rewrite <-Heq.
    by apply row_title_read_back.
Qed.

(** A loop that raises under one environment raises under every other. *)
Lemma steps_raise_any_env env1 env2 i st articles e :
  steps env1 i st articles = Raise e → steps env2 i st articles = Raise e.
Proof.
  intros H1.
  pose proof (steps_same_cells env1 env2 i st st articles eq_refl eq_refl
                (same_article_cells_refl _)) as H.
  rewrite H1 in H. destruct (steps env2 i st articles); [done | by subst].
Qed.

(** C4. After a run that got past its set-up, a second run over the
    same response from the article source, started on the sheet the first
    run left, appends nothing.  Every row the first run appended is read
    back, its link from column 6 and its title from column 2, into the
    sets the second run starts with, so a candidate carrying that link
    fails the link guard. *)
Theorem second_run_appends_nothing env1 env2 worksheet u results :
  open_sheet env1 = Ok u →
  requests_get env1 = Ok results →
  requests_get env2 = Ok results →
  run_sheet (main env2 (run_sheet (main env1 worksheet)))
  = run_sheet (main env1 worksheet)
  ∧ ∃ rows,
      run_sheet (main env1 worksheet) = worksheet ++ rows
      ∧ ∀ r, r ∈ rows →
          row_link r ∈ existing_links (initial (worksheet ++ rows))
          ∧ PStr (cell_text (row_title r))
              ∈ existing_titles (initial (worksheet ++ rows))
          ∧ ∀ st article, get article "link" = row_link r →
              existing_links (initial (worksheet ++ rows)) ⊆ existing_links st →
              accepts st article = false.
Proof.
  intros Ho1 Hf1 Hf2.
  assert (Hnothing : run_sheet (main env1 worksheet) = worksheet →
            run_sheet (main env2 worksheet) = worksheet →
            run_sheet (main env2 (run_sheet (main env1 worksheet)))
            = run_sheet (main env1 worksheet)
            ∧ ∃ rows, run_sheet (main env1 worksheet) = worksheet ++ rows
                ∧ ∀ r, r ∈ rows →
                    row_link r ∈ existing_links (initial (worksheet ++ rows))
                    ∧ PStr (cell_text (row_title r))
                        ∈ existing_titles (initial (worksheet ++ rows))
                    ∧ ∀ st article, get article "link" = row_link r →
                        existing_links (initial (worksheet ++ rows)) ⊆ existing_links st →
                        accepts st article = false).
  { intros H1 H2. rewrite H1. split; [done |].
    exists []. split; [by rewrite app_nil_r |].
    intros r Hr. by apply not_elem_of_nil in Hr. }
  assert (Hfail2 : ∀ w, (∃ e, open_sheet env2 = Raise e) → run_sheet (main env2 w) = w).
  { intros w [e He]. unfold main. by rewrite He. }
  destruct (get_results results) as [articles|] eqn:Hr; cycle 1.
  { apply Hnothing; [by eapply main_null_results |].
    destruct (open_sheet env2) as [u2|e] eqn:Ho2; [|apply Hfail2; by eexists].
    by eapply main_null_results. }
  destruct (steps env1 0 (initial worksheet) (reverse articles)) as [st1|e] eqn:Hst1; cycle 1.
  { apply Hnothing; [by eapply main_loop_raises |].
    destruct (open_sheet env2) as [u2|e2] eqn:Ho2; [|apply Hfail2; by eexists].
    eapply main_loop_raises; [done..|]. by eapply steps_raise_any_env. }
  destruct (main_sheet_ok env1 worksheet u results articles st1 Ho1 Hf1 Hr Hst1) as [_ Hs1].
  assert (Hinv : dedup_inv matcher_ratio (col_set 6 worksheet) (col_set 2 worksheet) st1).
  { eapply dedup_inv_steps; [done | apply dedup_inv_initial]. }
  assert (Hlinks : ∀ r, r ∈ rows_to_add st1 →
            row_link r ∈ existing_links (initial (worksheet ++ rows_to_add st1))).
  { intros r Hr'. simpl. rewrite col_set_app. apply elem_of_union_r.
    apply row_link_read_back; [done |]. by apply (inv_fresh _ _ _ _ Hinv). }
  split.
  - rewrite Hs1.
    destruct (open_sheet env2) as [u2|e] eqn:Ho2; [|apply Hfail2; by eexists].
    assert (Hst2 : steps env2 0 (initial (worksheet ++ rows_to_add st1)) (reverse articles)
                   = Ok (initial (worksheet ++ rows_to_add st1))).
    { apply steps_all_rejected. intros a Ha. apply blocked_after_append; [done |].
      by eapply steps_blocked. }
    destruct (main_sheet_ok env2 _ u2 results articles _ Ho2 Hf2 Hr Hst2) as [_ ->].
    simpl. by rewrite app_nil_r.
  - exists (rows_to_add st1). split; [done |].
    intros r Hr'. split_and!.
    + by apply Hlinks.
    + simpl. rewrite col_set_app. apply elem_of_union_r. by apply row_title_read_back.
    + intros st article Heq Hsub. apply accepts_false. right; left.
      rewrite Heq. by apply Hsub, Hlinks.
Qed.

(** *** When the loop returns *)

Lemma steps_returns env i st articles :
  (∀ a l, a ∈ articles → get a "link" = PStr l → ∃ domain, netloc l = Ok domain) →
  ∃ st', steps env i st articles = Ok st'.
Proof.
  revert i st. induction articles as [|a rest IH]; intros i st Hnet; simpl.
  - by eexists.
  - assert (Hstep : ∃ st1, step env i st a = Ok st1).
    { unfold step. destruct (accepts st a) eqn:Hacc; [|by eexists].
      apply accepts_true in Hacc as (Htr & _).
      destruct (get a "link") as [|l] eqn:Hl; [done |].
      destruct (Hnet a l) as [domain Hd]; [by left | done |].
      simpl. rewrite Hd. by eexists. }
    destruct Hstep as [st1 ->]. apply IH.
    intros b l Hb. apply Hnet. by right.
Qed.

(** Two runs on the same sheet that meet the same connection and the same
    response end the same way and append rows that differ in summary and
    timestamp at most. *)
Lemma main_same_cells env1 env2 worksheet :
  open_sheet env1 = open_sheet env2 →
  requests_get env1 = requests_get env2 →
  run_outcome (main env1 worksheet) = run_outcome (main env2 worksheet)
  ∧ ∃ rows1 rows2,
      run_sheet (main env1 worksheet) = worksheet ++ rows1
      ∧ run_sheet (main env2 worksheet) = worksheet ++ rows2
      ∧ Forall2 same_article_cells rows1 rows2.
Proof.
  intros Ho Hf.
  assert (Hnone : run_outcome (main env1 worksheet) = run_outcome (main env2 worksheet) →
            run_sheet (main env1 worksheet) = worksheet →
            run_sheet (main env2 worksheet) = worksheet →
            run_outcome (main env1 worksheet) = run_outcome (main env2 worksheet)
            ∧ ∃ rows1 rows2,
                run_sheet (main env1 worksheet) = worksheet ++ rows1
                ∧ run_sheet (main env2 worksheet) = worksheet ++ rows2
                ∧ Forall2 same_article_cells rows1 rows2).
  { intros H0 H1 H2. split; [done |]. exists [], [].
    rewrite app_nil_r. split_and!; [done | done | constructor]. }
  destruct (open_sheet env2) as [u|e] eqn:Ho2; cycle 1.
  { apply Hnone; unfold main; by rewrite ?Ho, ?Ho2. }
  destruct (requests_get env2) as [response|e] eqn:Hf2; cycle 1.
  { apply Hnone; unfold main; rewrite ?Ho, ?Ho2, ?Hf, ?Hf2;
      by destruct (is_request_exception e). }
  destruct (get_results response) as [articles|] eqn:Hr; cycle 1.
  { destruct (main_null_results env1 worksheet u response Ho Hf Hr) as [Ha Hb].
    destruct (main_null_results env2 worksheet u response Ho2 Hf2 Hr) as [Hc Hd].
    apply Hnone; congruence. }
  pose proof (steps_same_cells env1 env2 0 (initial worksheet) (initial worksheet)
                (reverse articles) eq_refl eq_refl (same_article_cells_refl _)) as Hsame.
  destruct (steps env1 0 (initial worksheet) (reverse articles)) as [st1|e1] eqn:Hst1;
    destruct (steps env2 0 (initial worksheet) (reverse articles)) as [st2|e2] eqn:Hst2;
    try done.
  - destruct (main_sheet_ok env1 worksheet u response articles st1 Ho Hf Hr Hst1) as [Ha Hb].
    destruct (main_sheet_ok env2 worksheet u response articles st2 Ho2 Hf2 Hr Hst2) as [Hc Hd].
    split; [congruence |]. exists (rows_to_add st1), (rows_to_add st2).
    split_and!; [done | done | apply Hsame].
  - subst e2.
    destruct (main_loop_raises env1 worksheet u response articles e1 Ho Hf Hr Hst1) as [Ha Hb].
    destruct (main_loop_raises env2 worksheet u response articles e1 Ho2 Hf2 Hr Hst2) as [Hc Hd].
    apply Hnone; congruence.
Qed.

(** *** Titles that are empty or missing *)

(** C6, as amended.  Two empty strings score 100, the maximum.  A
    candidate whose title is the empty string, with a fresh link, is
    therefore rejected whenever the known-titles set holds the empty
    string, and the rows a run appends never include two whose title is
    the empty string, nor one if the title column of the sheet already had
    an empty entry.  A title that is missing is another matter: it passes
    the similarity guard in every state, so blank title cells can repeat
    (see [blank_title_cells_repeat]). *)
Theorem blank_titles_collide env worksheet :
  score (PStr "") (PStr "") = 100
  ∧ (∀ i st article,
       get article "title" = PStr "" →
       truthy (get article "link") = true →
       get article "link" ∉ existing_links st →
       PStr "" ∈ existing_titles st →
       outcome (loop_body env i st article) = Ok st)
  ∧ (∃ rows,
      run_sheet (main env worksheet) = worksheet ++ rows
      ∧ (∀ j k r1 r2, rows !! j = Some r1 → rows !! k = Some r2 → (j < k)%nat →
           ¬ (row_title r1 = PStr "" ∧ row_title r2 = PStr ""))
      ∧ ("" ∈ col_values 2 worksheet → ∀ r, r ∈ rows → row_title r ≠ PStr ""))
  ∧ (∀ st article,
       get article "title" = PNone →
       truthy (get article "link") = true →
       get article "link" ∉ existing_links st →
       accepts st article = true).
Proof.
  split_and!.
  - done.
  - intros i st article Ht Htr Hnew Hin. apply loop_body_rejects, accepts_false.
    right; right. exists (PStr ""). split; [done |]. by rewrite Ht.
  - destruct (main_sheet env worksheet) as (st & [_ _ _ _ Hkn Hpr] & Hsheet).
    exists (rows_to_add st). split_and!; [done | |].
    + intros j k r1 r2 H1 H2 Hjk [E1 E2].
      specialize (Hpr j k r1 r2 H1 H2 Hjk). rewrite E1, E2 in Hpr.
      unfold SIMILARITY_THRESHOLD in Hpr. by vm_compute in Hpr.
    + intros Hblank r Hr E.
      specialize (Hkn r (PStr "") Hr). rewrite E in Hkn.
      unfold SIMILARITY_THRESHOLD in Hkn.
      assert (H : score (PStr "") (PStr "") ≤ 50).
      { apply Hkn. apply elem_of_col_set. by exists "". }
      by vm_compute in H.
  - intros st article Ht Htr Hnew. apply accepts_true. split_and!; [done..|].
    intros t _. rewrite Ht. simpl. unfold SIMILARITY_THRESHOLD. lia.
Qed.

(** C10, as amended.  A missing title (key absent, or null) scores 0
    against every known title instead of raising, so a candidate without a
    title whose link is present and fresh passes both guards.  Its
    iteration raises only if [urlparse] raises on its link, and then with
    that exception; otherwise it adds the candidate's row, with [None] in
    the title cell.  When the run returns, the batch it appends contains
    that row.  (A run is aborted when [urlparse] raises on an accepted
    link, title or no title: see [untitled_candidate_aborts].) *)
Theorem missing_title_accepted env worksheet u pre article post st :
  open_sheet env = Ok u →
  requests_get env = Ok (ResultsList (pre ++ article :: post)) →
  outcome (for_each env 0 (initial worksheet) (reverse post)) = Ok st →
  article !! "title" = None ∨ article !! "title" = Some PNone →
  truthy (get article "link") = true →
  get article "link" ∉ existing_links st →
  (∀ t, score (get article "title") t = 0)
  ∧ accepts st article = true
  ∧ (∀ summary domain, build_row env (length post) article summary domain !! 1%nat
                       = Some PNone)
  ∧ outcome (loop_body env (length post) st article)
    = match netloc (fmt (get article "link")) with
      | Ok domain =>
          Ok (accept st article
                (build_row env (length post) article
                   (summary_of env (length post) article) domain))
      | Raise e => Raise e
      end
  ∧ (run_outcome (main env worksheet) = Ok tt →
     ∃ r1 r3 summary domain,
       netloc (fmt (get article "link")) = Ok domain
       ∧ run_sheet (main env worksheet)
         = worksheet ++ r1 ++ [build_row env (length post) article summary domain] ++ r3).
Proof.
  intros Ho Hf Hst Ht Htr Hnew.
  assert (Htitle : get article "title" = PNone).
  { unfold get. by destruct Ht as [-> | ->]. }
  assert (Hacc : accepts st article = true).
  { apply accepts_true. split_and!; [done..|].
    intros t _. rewrite Htitle. simpl. unfold SIMILARITY_THRESHOLD. lia. }
  rewrite for_each_outcome in Hst.
  split_and!.
  - by rewrite Htitle.
  - done.
  - intros summary domain. simpl. by rewrite Htitle.
  - by apply loop_body_accepts.
  - intros Hout.
    destruct (main_returns_steps env worksheet u _ _ Ho Hf eq_refl Hout) as (st' & Hst' & ->).
    rewrite reverse_app, reverse_cons, <-app_assoc in Hst'. simpl in Hst'.
    destruct (rows_through env 0 (initial worksheet) _ article (reverse pre) st st'
                Hst Hacc Hst') as (domain & r1 & r3 & Hd & _ & ->).
    simpl. rewrite length_reverse.
    by exists r1, r3, (summary_of env (length post) article), domain.
Qed.

(** *** The summariser and the row *)

(** C7. [get_ai_summary] never raises.  It returns "Summary not
    available." when the description is empty or missing or no API key is
    set, "AI summary failed." when the backend call raises, and the
    backend's text stripped of surrounding whitespace otherwise.  The
    summariser is never what keeps a row from being built and appended:
    an article that passes the filter gets its row, with what
    [get_ai_summary] returned in the summary cell, unless [urlparse]
    raises on its link; a run under any other key, backend and clock ends
    the same way and appends rows that differ in summary and timestamp at
    most; and a run that returns after its set-up has appended the rows
    the loop gathered. *)
Theorem summarizer_never_blocks env i title description :
  (∃ s, outcome (get_ai_summary env i title description) = Ok s)
  ∧ (truthy description = false ∨ truthy (openai_api_key env) = false →
     get_ai_summary env i title description = IO [] (Ok "Summary not available."))
  ∧ (∀ e, truthy description = true → truthy (openai_api_key env) = true →
     chat_completions_create env i (summary_prompt title description) = Raise e →
     get_ai_summary env i title description
     = IO ["Error calling OpenAI API: " +:+ exn_str e] (Ok "AI summary failed."))
  ∧ (∀ s, truthy description = true → truthy (openai_api_key env) = true →
     chat_completions_create env i (summary_prompt title description) = Ok (PStr s) →
     get_ai_summary env i title description = IO [] (Ok (strip s)))
  ∧ (∀ st article, accepts st article = true →
     ∃ s, outcome (get_ai_summary env i (get article "title") (get article "description"))
          = Ok s
          ∧ outcome (loop_body env i st article)
            = match netloc (fmt (get article "link")) with
              | Ok domain => Ok (accept st article (build_row env i article s domain))
              | Raise e => Raise e
              end
          ∧ ∀ domain, build_row env i article s domain !! 2%nat = Some (PStr s))
  ∧ (∀ env' worksheet,
     open_sheet env' = open_sheet env → requests_get env' = requests_get env →
     run_outcome (main env' worksheet) = run_outcome (main env worksheet)
     ∧ ∃ rows' rows,
         run_sheet (main env' worksheet) = worksheet ++ rows'
         ∧ run_sheet (main env worksheet) = worksheet ++ rows
         ∧ Forall2 same_article_cells rows' rows)
  ∧ (∀ worksheet u response articles,
     open_sheet env = Ok u → requests_get env = Ok response →
     get_results response = Some articles →
     run_outcome (main env worksheet) = Ok tt →
     ∃ st, outcome (process matcher_ratio netloc env worksheet articles) = Ok st
           ∧ run_sheet (main env worksheet) = worksheet ++ rows_to_add st).
Proof.
  split_and!.
  - apply get_ai_summary_returns.
  - apply get_ai_summary_unavailable.
  - intros e. apply get_ai_summary_failed.
  - intros s. apply get_ai_summary_trimmed.
  - intros st article Hacc. exists (summary_of env i article). split_and!.
    + apply summary_of_spec.
    + by apply loop_body_accepts.
    + done.
  - intros env' worksheet Ho Hf. by apply main_same_cells.
  - intros worksheet u response articles Ho Hf Hr Hout.
    destruct (main_returns_steps env worksheet u response articles Ho Hf Hr Hout)
      as (st & Hst & Hs).
    exists st. by rewrite process_outcome.
Qed.


(** *** Failures of the set-up *)

(** C9. When connecting to the sheet raises, or the fetch raises a
    [RequestException], [main] prints the error and returns at once: the
    outcome is a normal return, nothing is printed after the error line,
    and the sheet is the one the run was given. *)
Theorem setup_failure_writes_nothing env worksheet :
  (∀ e, open_sheet env = Raise e →
     main env worksheet
     = {| run_printed := ["Starting news pipeline with your preferred query...";
                          "Error connecting to Google Sheets: " +:+ exn_str e];
          run_outcome := Ok tt;
          run_sheet := worksheet |})
  ∧ (∀ u msg, open_sheet env = Ok u →
     requests_get env = Raise (RequestException msg) →
     main env worksheet
     = {| run_printed := ["Starting news pipeline with your preferred query...";
                          "Connected to Google Sheet: " +:+ fmt (SPREADSHEET_NAME env);
                          "Fetching news from Newsdata.io...";
                          "Error fetching from Newsdata.io API: " +:+ msg];
          run_outcome := Ok tt;
          run_sheet := worksheet |}).
Proof.
  split.
  - intros e He. unfold main. by rewrite He.
  - intros u msg Ho Hf. unfold main. by rewrite Ho, Hf.
Qed.

(** A fetch that fails with anything but a [RequestException] is not
    caught: [main] raises, still without touching the sheet. *)
Lemma fetch_other_error_propagates env worksheet u msg :
  open_sheet env = Ok u →
  requests_get env = Raise (OtherException msg) →
  run_outcome (main env worksheet) = Raise (OtherException msg)
  ∧ run_sheet (main env worksheet) = worksheet.
Proof. intros Ho Hf. unfold main. by rewrite Ho, Hf. Qed.

(** [dict.get] with a default replaces a missing key only: a [pubDate]
    that is present but null goes into the row as it is. *)
Lemma null_pubDate_kept env i article summary domain :
  article !! "pubDate" = Some PNone →
  build_row env i article summary domain !! 7%nat = Some PNone.
Proof. intros H. unfold build_row, get_default. by rewrite H. Qed.

(** *** The link column over the life of the sheet *)

Lemma cell_text_inj_truthy v1 v2 :
  truthy v1 = true → truthy v2 = true → cell_text v1 = cell_text v2 → v1 = v2.
Proof. destruct v1, v2; simpl; congruence. Qed.

Lemma NoDup_cell_text (vs : list pyval) :
  (∀ v, v ∈ vs → truthy v = true) → NoDup vs → NoDup (cell_text <$> vs).
Proof.
  intros Htr Hnd. induction Hnd as [|v vs Hv Hnd IH]; simpl; [constructor |].
  constructor.
  - intros (v' & Heq & Hv')%list_elem_of_fmap.
    apply cell_text_inj_truthy in Heq; [by subst | |].
    + apply Htr. by left.
    + apply Htr. by right.
  - apply IH. intros v' Hv'. apply Htr. by right.
Qed.

(** If the link column holds no link twice before a run, it holds none
    twice after it. *)
Lemma link_column_stays_distinct env worksheet :
  NoDup (col_values 6 worksheet) →
  NoDup (col_values 6 (run_sheet (main env worksheet))).
Proof.
  intros Hnd.
  destruct (main_sheet env worksheet) as (st & [_ _ Hrows Hfr _ _] & ->).
  unfold col_values. rewrite fmap_app. apply NoDup_app. split_and!.
  - done.
  - intros l Hl (r & -> & Hr)%list_elem_of_fmap.
    destruct (Hfr r Hr) as [Hnew Htr]. apply Hnew.
    apply elem_of_col_set. exists (cell_text (row_link r)).
    split; [by apply truthy_PStr | done].
  - change (NoDup ((λ row, cell_text (row_link row)) <$> rows_to_add st)).
    rewrite (list_fmap_compose row_link cell_text). apply NoDup_cell_text; [|done].
    intros v (r & -> & Hr)%list_elem_of_fmap. by apply Hfr.
Qed.

End MainFacts.

(** ** The pipeline on a concrete batch *)

Example ex_run :
  main lcs_ratio simple_netloc ex_env ex_sheet
  = {| run_printed :=
         ["Starting news pipeline with your preferred query...";
          "Connected to Google Sheet: AI News Feed";
          "Fetching news from Newsdata.io...";
          "Found 4 articles. Processing and checking for duplicates...";
          "Error calling OpenAI API: rate limit";
          "Error calling OpenAI API: rate limit";
          "Process complete. Added 3 new articles."];
       run_outcome := Ok tt;
       run_sheet := ex_sheet ++
         [[PStr ""; PStr "OpenAI launches GPT-5"; PStr "GPT-5 is here."; PNone;
           PStr "a"; PStr "https://a.com/1";
           PStr "https://www.google.com/s2/favicons?domain=a.com&sz=64";
           PStr "2024-05-03T00:00:00+00:00"; PStr "Published"];
          [PStr ""; PNone; PStr "AI summary failed."; PNone;
           PNone; PStr "https://n.io/3";
           PStr "https://www.google.com/s2/favicons?domain=n.io&sz=64";
           PStr "2024-05-03T00:00:00+00:00"; PStr "Published"];
          [PStr ""; PStr "Quantum chip sets record"; PStr "AI summary failed."; PNone;
           PNone; PStr "https://b.org/2";
           PStr "https://www.google.com/s2/favicons?domain=b.org&sz=64";
           PStr "2024-05-02 10:00:00"; PStr "Published"]] |}.
Proof. vm_compute. reflexivity. Qed.

Example ex_reordered_title :
  token_sort_ratio lcs_ratio (PStr "GPT-5 launches from OpenAI")
    (PStr "OpenAI launches GPT-5") = 89.
Proof. vm_compute. reflexivity. Qed.

Example ex_offline :
  run_sheet (main lcs_ratio simple_netloc ex_env_offline ex_sheet) = ex_sheet.
Proof. reflexivity. Qed.

(** ** The theorems at the concrete batch *)

Lemma oldest_first_witness :
  ∃ r1 r2 r3 sA sB dA dB,
    simple_netloc (fmt (get ex_oldest "link")) = Ok dA
    ∧ simple_netloc (fmt (get ex_newest "link")) = Ok dB
    ∧ run_sheet (main lcs_ratio simple_netloc ex_env ex_sheet)
      = ex_sheet ++ r1 ++ [build_row ex_env 0 ex_oldest sA dA]
          ++ r2 ++ [build_row ex_env 3 ex_newest sB dB] ++ r3.
Proof.
  apply (oldest_first lcs_ratio simple_netloc ex_env ex_sheet tt
           [] ex_newest [ex_no_link; ex_no_title] ex_oldest []
           (initial ex_sheet)
           (ex_state ex_env ex_sheet (reverse [ex_no_link; ex_no_title; ex_oldest]))).
  - reflexivity.
  - reflexivity.
  - vm_compute. reflexivity.
  - reflexivity.
  - vm_compute. reflexivity.
  - vm_compute. reflexivity.
  - vm_compute. reflexivity.
Defined.

Lemma second_run_appends_nothing_witness :
  run_sheet (main lcs_ratio simple_netloc ex_env_again
               (run_sheet (main lcs_ratio simple_netloc ex_env ex_sheet)))
  = run_sheet (main lcs_ratio simple_netloc ex_env ex_sheet).
Proof.
  apply (second_run_appends_nothing lcs_ratio simple_netloc ex_env ex_env_again
           ex_sheet tt (ResultsList ex_batch)); reflexivity.
Defined.

Lemma missing_link_rejected_witness :
  loop_body lcs_ratio simple_netloc ex_env 2 (initial ex_sheet) ex_no_link
  = IO [] (Ok (initial ex_sheet)).
Proof.
  apply (missing_link_rejected lcs_ratio simple_netloc ex_env 2 (initial ex_sheet)
           ex_no_link).
  left. vm_compute. reflexivity.
Defined.

Lemma missing_title_accepted_witness :
  accepts lcs_ratio (ex_state ex_env ex_sheet [ex_oldest]) ex_no_title = true
  ∧ ∃ r1 r3 summary domain,
      simple_netloc (fmt (get ex_no_title "link")) = Ok domain
      ∧ run_sheet (main lcs_ratio simple_netloc ex_env ex_sheet)
        = ex_sheet ++ r1 ++ [build_row ex_env 1 ex_no_title summary domain] ++ r3.
Proof.
  destruct (missing_title_accepted lcs_ratio simple_netloc ex_env ex_sheet tt
              [ex_newest; ex_no_link] ex_no_title [ex_oldest]
              (ex_state ex_env ex_sheet [ex_oldest]))
    as (_ & Hacc & _ & _ & Hrun).
  - reflexivity.
  - reflexivity.
  - vm_compute. reflexivity.
  - right. vm_compute. reflexivity.
  - vm_compute. reflexivity.
  - apply (bool_decide_unpack _). vm_compute. exact I.
  - split; [exact Hacc |]. apply Hrun. vm_compute. reflexivity.
Defined.


Lemma similarity_gate_witness :
  outcome (loop_body lcs_ratio simple_netloc ex_env 4
             (initial (run_sheet (main lcs_ratio simple_netloc ex_env ex_sheet)))
             ex_reworded)
  = Ok (initial (run_sheet (main lcs_ratio simple_netloc ex_env ex_sheet))).
Proof.
  destruct (similarity_gate lcs_ratio simple_netloc ex_env ex_sheet) as [Hgate _].
  apply Hgate.
  - vm_compute. reflexivity.
  - apply (bool_decide_unpack _). vm_compute. exact I.
  - exists (PStr "OpenAI launches GPT-5"). split.
    + apply (bool_decide_unpack _). vm_compute. exact I.
    + vm_compute. reflexivity.
Defined.

Lemma appended_links_distinct_witness :
  ∃ st', outcome (loop_body lcs_ratio simple_netloc ex_env 0 (initial ex_sheet) ex_oldest)
         = Ok st'
         ∧ get ex_oldest "link" ∈ existing_links st'
         ∧ accepts lcs_ratio st' ex_same_link = false.
Proof.
  destruct (appended_links_distinct lcs_ratio simple_netloc ex_env ex_sheet)
    as [_ Hadd].
  destruct (Hadd 0%nat (initial ex_sheet) ex_oldest) as (Hreturns & _ & _).
  - vm_compute. reflexivity.
  - destruct (Hreturns "a.com") as (st' & Hst & Hin & Hlater).
    + vm_compute. reflexivity.
    + exists st'. split_and!; [exact Hst | exact Hin |].
      apply Hlater. vm_compute. reflexivity.
Defined.

Lemma blank_titles_collide_witness :
  outcome (loop_body lcs_ratio simple_netloc ex_env 0 (initial ex_sheet_blank) ex_blank)
  = Ok (initial ex_sheet_blank).
Proof.
  destruct (blank_titles_collide lcs_ratio simple_netloc ex_env ex_sheet_blank)
    as (_ & Hblank & _ & _).
  apply Hblank.
  - vm_compute. reflexivity.
  - vm_compute. reflexivity.
  - apply (bool_decide_unpack _). vm_compute. exact I.
  - apply (bool_decide_unpack _). vm_compute. exact I.
Defined.

Lemma summarizer_never_blocks_witness :
  get_ai_summary ex_env 1 PNone (PStr "Untitled.")
  = IO ["Error calling OpenAI API: rate limit"] (Ok "AI summary failed.").
Proof.
  destruct (summarizer_never_blocks lcs_ratio simple_netloc ex_env 1 PNone
              (PStr "Untitled.")) as (_ & _ & Hfailed & _).
  apply (Hfailed (OtherException "rate limit")); reflexivity.
Defined.

Lemma setup_failure_writes_nothing_witness :
  main lcs_ratio simple_netloc ex_env_offline ex_sheet
  = {| run_printed := ["Starting news pipeline with your preferred query...";
                       "Connected to Google Sheet: AI News Feed";
                       "Fetching news from Newsdata.io...";
                       "Error fetching from Newsdata.io API: 503 Server Error"];
       run_outcome := Ok tt;
       run_sheet := ex_sheet |}.
Proof.
  destruct (setup_failure_writes_nothing lcs_ratio simple_netloc ex_env_offline
              ex_sheet) as [_ Hfetch].
  apply (Hfetch tt "503 Server Error"); reflexivity.
Defined.

(** ** Where the spec and the code part *)

(** C6: a candidate with an empty title is accepted right after an
    untitled one, and the sheet gets two rows with a blank title cell in
    one run. *)
Lemma blank_title_cells_repeat :
  get ex_blank "title" = PStr ""
  ∧ run_outcome (main lcs_ratio simple_netloc
                   (ex_env_with (ResultsList [ex_blank; ex_no_title])) ex_sheet) = Ok tt
  ∧ col_values 2 (run_sheet (main lcs_ratio simple_netloc
                               (ex_env_with (ResultsList [ex_blank; ex_no_title]))
                               ex_sheet))
    = ["Cats rule the internet"; ""; ""]
  ∧ col_values 6 (run_sheet (main lcs_ratio simple_netloc
                               (ex_env_with (ResultsList [ex_blank; ex_no_title]))
                               ex_sheet))
    = ["https://old.net/0"; "https://n.io/3"; "https://d.io/5"].
Proof. vm_compute. done. Qed.


(** C10: an untitled candidate with a fresh, non-empty link on which
    [urlparse] raises: the run is aborted and nothing is appended. *)
Lemma untitled_candidate_aborts :
  get ex_bad_link "title" = PNone
  ∧ truthy (get ex_bad_link "link") = true
  ∧ (get ex_bad_link "link" ∉ existing_links (initial ex_sheet))
  ∧ accepts lcs_ratio (initial ex_sheet) ex_bad_link = true
  ∧ run_outcome (main lcs_ratio simple_netloc
                   (ex_env_with (ResultsList [ex_bad_link])) ex_sheet)
    = Raise (OtherException "Invalid IPv6 URL")
  ∧ run_sheet (main lcs_ratio simple_netloc
                 (ex_env_with (ResultsList [ex_bad_link])) ex_sheet)
    = ex_sheet.
Proof.
  split_and!; try (vm_compute; reflexivity).
  apply (bool_decide_unpack _). vm_compute. exact I.
Qed.

Example ex_null_results :
  main lcs_ratio simple_netloc (ex_env_with ResultsNull) ex_sheet
  = {| run_printed := ["Starting news pipeline with your preferred query...";
                       "Connected to Google Sheet: AI News Feed";
                       "Fetching news from Newsdata.io..."];
       run_outcome := Raise (OtherException "object of type 'NoneType' has no len()");
       run_sheet := ex_sheet |}.
Proof. reflexivity. Qed.

(** * Further properties of [main] *)

Section MoreFacts.

Variable matcher_ratio : string → string → Z.
Variable netloc : string → exc string.

Local Abbreviation score := (token_sort_ratio matcher_ratio).
Local Abbreviation accepts := (accepts matcher_ratio).
Local Abbreviation loop_body := (loop_body matcher_ratio netloc).
Local Abbreviation for_each := (for_each matcher_ratio netloc).
Local Abbreviation process := (process matcher_ratio netloc).
Local Abbreviation main := (main matcher_ratio netloc).
Local Abbreviation step := (step matcher_ratio netloc).
Local Abbreviation steps := (steps matcher_ratio netloc).

(** ** Where the rows come from *)

Lemma steps_rows_origin env i st articles st' r :
  steps env i st articles = Ok st' →
  r ∈ rows_to_add st' →
  r ∈ rows_to_add st
  ∨ ∃ k article domain,
      articles !! k = Some article
      ∧ truthy (get article "link") = true
      ∧ netloc (fmt (get article "link")) = Ok domain
      ∧ r = build_row env (i + k) article (summary_of env (i + k) article) domain.
Proof.
  revert i st. induction articles as [|a rest IH]; intros i st Hst Hr; simpl in Hst.
  - injection Hst as <-. by left.
  - destruct (step env i st a) as [st1|e] eqn:Hstep; [|done].
    destruct (IH _ _ Hst Hr) as [Hr1 | (k & article & domain & Hk & Htr & Hd & ->)].
    + apply step_Ok in Hstep as [[_ ->] | (Hacc & domain & Hd & ->)]; [by left |].
      simpl in Hr1.
      apply elem_of_app in Hr1 as [Hr1 | ->%list_elem_of_singleton]; [by left |].
      right. exists 0%nat, a, domain. rewrite Nat.add_0_r. split_and!; [done | | done..].
      by apply accepts_true in Hacc as (? & _).
    + right. exists (S k), article, domain. rewrite Nat.add_succ_r. by split_and!.
Qed.

Lemma steps_rows_length env i st articles st' :
  steps env i st articles = Ok st' →
  (length (rows_to_add st')
   ≤ length (rows_to_add st)
     + length (filter (λ a, truthy (get a "link") = true) articles))%nat.
Proof.
  revert i st. induction articles as [|a rest IH]; intros i st Hst; simpl in Hst.
  - injection Hst as <-. simpl. lia.
  - destruct (step env i st a) as [st1|e] eqn:Hstep; [|done].
    etrans; [by eapply IH |].
    apply step_Ok in Hstep as [[_ ->] | (Hacc & domain & _ & ->)].
    + rewrite filter_cons. case_decide; simpl; lia.
    + apply accepts_true in Hacc as (Htr & _).
      rewrite filter_cons_True by done. simpl. rewrite length_app. simpl. lia.
Qed.

(** X1. Whatever happens during a run, set-up failure and uncaught
    exception included, the rows the sheet had are still there, in place
    and unchanged: [main] only ever adds rows at the end. *)
Theorem sheet_is_append_only env worksheet :
  worksheet `prefix_of` run_sheet (main env worksheet)
  ∧ ∀ k row, worksheet !! k = Some row →
      run_sheet (main env worksheet) !! k = Some row.
Proof.
  destruct (main_sheet matcher_ratio netloc env worksheet) as (st & _ & ->).
  split; [by eexists |].
  intros k row Hk. by apply lookup_app_l_Some.
Qed.

(** X2. A run appends at most one row per fetched article that carries a
    non-empty link. *)
Theorem appended_rows_bounded env worksheet results :
  requests_get env = Ok results →
  (length (run_sheet (main env worksheet))
   ≤ length worksheet
     + length (filter (λ a, truthy (get a "link") = true)
                 (default [] (get_results results))))%nat.
Proof.
  intros Hf.
  destruct (main_cases matcher_ratio netloc env worksheet)
    as [-> | (u & response & articles & st & _ & Hf' & Hr & Hst & _ & ->)]; [lia |].
  rewrite Hf in Hf'. injection Hf' as <-. rewrite Hr. simpl.
  rewrite length_app.
  pose proof (steps_rows_length env 0 (initial worksheet) (reverse articles) st Hst)
    as Hlen.
  simpl in Hlen.
  assert (Hperm : length (filter (λ a, truthy (get a "link") = true) (reverse articles))
                  = length (filter (λ a, truthy (get a "link") = true) articles)).
  { apply Permutation_length. apply filter_Permutation, reverse_Permutation. }
  lia.
Qed.

(** X3. Every row a run appends is the row of one of the fetched
    articles: nine cells, an empty status, that article's title, image
    URL, source id and link (a non-empty string), the favicon template
    around the link's network location, and "Published". *)
Theorem appended_rows_well_formed env worksheet :
  ∃ rows,
    run_sheet (main env worksheet) = worksheet ++ rows
    ∧ ∀ r, r ∈ rows →
        ∃ results article link domain,
          requests_get env = Ok results
          ∧ article ∈ default [] (get_results results)
          ∧ get article "link" = PStr link ∧ link ≠ ""
          ∧ netloc link = Ok domain
          ∧ length r = 9%nat
          ∧ r !! 0%nat = Some (PStr "")
          ∧ r !! 1%nat = Some (get article "title")
          ∧ r !! 3%nat = Some (get article "image_url")
          ∧ r !! 4%nat = Some (get article "source_id")
          ∧ r !! 5%nat = Some (PStr link)
          ∧ r !! 6%nat = Some (PStr ("https://www.google.com/s2/favicons?domain="
                                      +:+ domain +:+ "&sz=64"))
          ∧ r !! 8%nat = Some (PStr "Published").
Proof.
  destruct (main_cases matcher_ratio netloc env worksheet)
    as [Hs | (u & response & articles & st & _ & Hf & Hr & Hst & _ & Hs)].
  { exists []. split; [by rewrite app_nil_r |].
    intros r Hr. by apply not_elem_of_nil in Hr. }
  exists (rows_to_add st). split; [done |].
  intros r Hin.
  destruct (steps_rows_origin _ _ _ _ _ _ Hst Hin)
    as [Hin' | (k & article & domain & Hk & Htr & Hd & ->)].
  { by apply not_elem_of_nil in Hin'. }
  destruct (get article "link") as [|link] eqn:Hlink; [done |].
  exists response, article, link, domain. rewrite Hr. simpl.
  split_and!; try done.
  - apply elem_of_reverse. by eapply list_elem_of_lookup_2.
  - intros ->. done.
  - by rewrite Hlink.
Qed.

(** ** Over the life of the sheet *)

(** X4. However often [main] is run, and whatever each run meets, a
    link column that holds no entry twice stays that way, and the rows
    the sheet started with stay at the front. *)
Theorem link_column_distinct_for_life envs worksheet :
  NoDup (col_values 6 worksheet) →
  NoDup (col_values 6 (runs matcher_ratio netloc envs worksheet))
  ∧ worksheet `prefix_of` runs matcher_ratio netloc envs worksheet.
Proof.
  revert worksheet. induction envs as [|env envs IH]; intros worksheet Hnd.
  - done.
  - unfold runs. simpl. fold (runs matcher_ratio netloc envs (run_sheet (main env worksheet))).
    destruct (IH (run_sheet (main env worksheet))) as [Hnd' Hpre].
    { by apply link_column_stays_distinct. }
    split; [done |]. etrans; [|exact Hpre].
    destruct (main_sheet matcher_ratio netloc env worksheet) as (st & _ & ->).
    by eexists.
Qed.

Lemma col_set_rows_links (rows : list Row) :
  (∀ r, r ∈ rows → truthy (row_link r) = true) →
  col_set 6 rows = list_to_set (row_link <$> rows).
Proof.
  intros Htr. apply set_eq. intros x.
  rewrite elem_of_col_set, elem_of_list_to_set, list_elem_of_fmap. split.
  - intros (l & -> & (r & -> & Hr)%list_elem_of_fmap).
    exists r. split; [|done]. symmetry. apply (truthy_PStr (row_link r)). by apply Htr.
  - intros (r & -> & Hr). exists (cell_text (row_link r)). split.
    + apply truthy_PStr. by apply Htr.
    + apply list_elem_of_fmap. by exists r.
Qed.

Lemma col_set_rows_titles (rows : list Row) :
  (∀ r, r ∈ rows → row_title r ≠ PNone) →
  col_set 2 rows = list_to_set (row_title <$> rows).
Proof.
  intros Hs. apply set_eq. intros x.
  rewrite elem_of_col_set, elem_of_list_to_set, list_elem_of_fmap. split.
  - intros (l & -> & (r & -> & Hr)%list_elem_of_fmap).
    exists r. split; [|done]. specialize (Hs r Hr).
    change (nth (2 - 1) r PNone) with (row_title r). by destruct (row_title r).
  - intros (r & -> & Hr). exists (cell_text (row_title r)). split.
    + specialize (Hs r Hr). by destruct (row_title r).
    + apply list_elem_of_fmap. by exists r.
Qed.

(** X5. When the loop is through, the links it holds as known are
    exactly the links the link column will show once the rows are
    appended; the same goes for the titles as long as no appended row has
    [None] for a title.  The next run therefore starts from what this run
    ended with. *)
Theorem known_sets_match_sheet env worksheet u results st :
  open_sheet env = Ok u →
  requests_get env = Ok results →
  outcome (process env worksheet (default [] (get_results results))) = Ok st →
  existing_links st = col_set 6 (run_sheet (main env worksheet))
  ∧ ((∀ r, r ∈ rows_to_add st → row_title r ≠ PNone) →
     existing_titles st = col_set 2 (run_sheet (main env worksheet))).
Proof.
  intros Ho Hf Hst. rewrite process_outcome in Hst.
  assert (Hinv : dedup_inv matcher_ratio (col_set 6 worksheet) (col_set 2 worksheet) st).
  { eapply dedup_inv_steps; [done | apply dedup_inv_initial]. }
  assert (Hsheet : run_sheet (main env worksheet) = worksheet ++ rows_to_add st).
  { destruct (get_results results) as [articles|] eqn:Hr; simpl in Hst.
    - by eapply main_sheet_ok.
    - injection Hst as <-. simpl. rewrite app_nil_r. by eapply main_null_results. }
  rewrite Hsheet. destruct Hinv as [Hl Ht _ Hfr _ _]. rewrite !col_set_app. split.
  - rewrite Hl. f_equal. symmetry. apply col_set_rows_links.
    intros r Hr. by apply Hfr.
  - intros Hs. rewrite Ht. f_equal. symmetry. by apply col_set_rows_titles.
Qed.

(** ** What the filter does not look at *)

(** X6. The filter's decisions depend on the sheet, the batch and the
    matcher only.  Two runs over the same response on the same sheet,
    with whatever API key, summarisation backend and clock, append the
    same number of rows, and the rows agree pairwise in every cell but
    the summary (cell 3) and the timestamp (cell 8). *)
Theorem dedup_ignores_summariser env1 env2 worksheet u1 u2 results :
  open_sheet env1 = Ok u1 →
  open_sheet env2 = Ok u2 →
  requests_get env1 = Ok results →
  requests_get env2 = Ok results →
  ∃ rows1 rows2,
    run_sheet (main env1 worksheet) = worksheet ++ rows1
    ∧ run_sheet (main env2 worksheet) = worksheet ++ rows2
    ∧ length rows1 = length rows2
    ∧ Forall2 same_article_cells rows1 rows2.
Proof.
  intros Ho1 Ho2 Hf1 Hf2.
  destruct (main_same_cells matcher_ratio netloc env1 env2 worksheet)
    as (_ & rows1 & rows2 & H1 & H2 & Hsame).
  { rewrite Ho1, Ho2. by destruct u1, u2. }
  { by rewrite Hf1, Hf2. }
  exists rows1, rows2. split_and!; [done | done | | done].
  by eapply Forall2_length.
Qed.

(** ** Summaries *)

Lemma appended_summaries env worksheet (P : pyval → Prop) :
  (∀ k article, P (PStr (summary_of env k article))) →
  ∃ rows,
    run_sheet (main env worksheet) = worksheet ++ rows
    ∧ ∀ r, r ∈ rows → ∃ v, r !! 2%nat = Some v ∧ P v.
Proof.
  intros HP.
  destruct (main_cases matcher_ratio netloc env worksheet)
    as [Hs | (u & response & articles & st & _ & Hf & Hr & Hst & _ & Hs)].
  { exists []. split; [by rewrite app_nil_r |].
    intros r Hr. by apply not_elem_of_nil in Hr. }
  exists (rows_to_add st). split; [done |].
  intros r Hin.
  destruct (steps_rows_origin _ _ _ _ _ _ Hst Hin)
    as [Hin' | (k & article & domain & _ & _ & _ & ->)].
  { by apply not_elem_of_nil in Hin'. }
  eexists. split; [done |]. apply HP.
Qed.

(** X8. With [OPENAI_API_KEY] unset or empty the module leaves
    [openai.api_key] at [None]; [get_ai_summary] then answers "Summary not
    available." without printing anything, for every article, and every
    row a run appends carries that summary. *)
Theorem unconfigured_key_summaries KEY env worksheet :
  openai_api_key env = configure_openai KEY →
  truthy KEY = false →
  (∀ i title description,
     get_ai_summary env i title description = IO [] (Ok "Summary not available."))
  ∧ ∃ rows,
      run_sheet (main env worksheet) = worksheet ++ rows
      ∧ ∀ r, r ∈ rows → r !! 2%nat = Some (PStr "Summary not available.").
Proof.
  intros Hkey HKEY.
  assert (Hoff : truthy (openai_api_key env) = false).
  { rewrite Hkey. unfold configure_openai. by rewrite HKEY. }
  assert (Hsum : ∀ i title description,
            get_ai_summary env i title description = IO [] (Ok "Summary not available.")).
  { intros. apply get_ai_summary_unavailable. by right. }
  split; [done |].
  destruct (appended_summaries env worksheet (λ v, v = PStr "Summary not available."))
    as (rows & Hs & Hrows).
  { intros k article. unfold summary_of. by rewrite Hsum. }
  exists rows. split; [done |].
  intros r Hr. destruct (Hrows r Hr) as (v & Hv & ->). done.
Qed.

Lemma lstrip_head s :
  match lstrip s with
  | EmptyString => True
  | String c _ => is_space c = false
  end.
Proof.
  induction s as [|c s IH]; simpl; [done |].
  destruct (is_space c) eqn:Hc; [done |]. simpl. done.
Qed.

Lemma lstrip_fixed s :
  match s with
  | EmptyString => True
  | String c _ => is_space c = false
  end → lstrip s = s.
Proof. destruct s as [|c s]; simpl; [done |]. by intros ->. Qed.

Lemma rstrip_head s :
  match s with
  | EmptyString => True
  | String c _ => is_space c = false
  end →
  match rstrip s with
  | EmptyString => True
  | String c _ => is_space c = false
  end.
Proof.
  destruct s as [|c s]; simpl; [done |]. intros Hc.
  destruct (rstrip s); simpl; [by rewrite Hc |  done].
Qed.

Lemma rstrip_idemp s : rstrip (rstrip s) = rstrip s.
Proof.
  induction s as [|c s IH]; simpl; [done |].
  destruct (rstrip s) as [|c' r] eqn:Hr.
  - destruct (is_space c) eqn:Hc; simpl; [done |]. by rewrite Hc.
  - simpl in *. by rewrite IH.
Qed.

Lemma strip_idemp s : strip (strip s) = strip s.
Proof.
  unfold strip.
  rewrite (lstrip_fixed (rstrip (lstrip s))).
  - apply rstrip_idemp.
  - apply rstrip_head, lstrip_head.
Qed.

(** X9. Whatever [get_ai_summary] returns has no whitespace at either
    end: stripping it again changes nothing.  So has the summary cell of
    every row a run appends. *)
Theorem summaries_are_trimmed env worksheet :
  (∀ i title description,
     ∃ s, outcome (get_ai_summary env i title description) = Ok s ∧ strip s = s)
  ∧ ∃ rows,
      run_sheet (main env worksheet) = worksheet ++ rows
      ∧ ∀ r, r ∈ rows → ∃ s, r !! 2%nat = Some (PStr s) ∧ strip s = s.
Proof.
  assert (Hsum : ∀ i title description,
            ∃ s, outcome (get_ai_summary env i title description) = Ok s ∧ strip s = s).
  { intros i title description. unfold get_ai_summary.
    destruct (negb _); [by eexists |].
    unfold io_try, lift, mbind, io_bind. simpl.
    destruct (chat_completions_create env i _) as [[|s]|e]; simpl.
    - by eexists.
    - eexists. split; [done |]. apply strip_idemp.
    - by eexists. }
  split; [done |].
  destruct (appended_summaries env worksheet (λ v, ∃ s, v = PStr s ∧ strip s = s))
    as (rows & Hs & Hrows).
  { intros k article. eexists. split; [done |].
    destruct (Hsum k (get article "title") (get article "description")) as (s & Hout & Hstrip).
    unfold summary_of. by rewrite Hout. }
  exists rows. split; [done |].
  intros r Hr. destruct (Hrows r Hr) as (v & Hv & s & -> & Hstrip). by exists s.
Qed.

(** ** Titles the filter lets through, and titles it stops *)

Lemma steps_untitled env i st articles st' :
  steps env i st articles = Ok st' →
  (∀ a, a ∈ articles →
     get a "title" = PNone ∧ truthy (get a "link") = true
     ∧ (get a "link" ∉ existing_links st)) →
  NoDup ((λ a, get a "link") <$> articles) →
  row_link <$> rows_to_add st'
  = (row_link <$> rows_to_add st) ++ ((λ a, get a "link") <$> articles).
Proof.
  revert i st. induction articles as [|a rest IH]; intros i st Hst Hall Hnd; simpl in Hst.
  - injection Hst as <-. simpl. by rewrite app_nil_r.
  - apply NoDup_cons in Hnd as [Hfresh Hnd].
    destruct (Hall a) as (Ht & Htr & Hnew); [by left |].
    assert (Hacc : accepts st a = true).
    { apply accepts_true. split_and!; [done..|].
      intros t _. rewrite Ht. simpl. unfold SIMILARITY_THRESHOLD. lia. }
    destruct (step env i st a) as [st1|e] eqn:Hstep; [|done].
    apply step_Ok in Hstep as [[Hrej _] | (_ & domain & Hd & ->)]; [congruence |].
    rewrite (IH _ _ Hst); [| |done].
    + simpl. rewrite fmap_app, <-app_assoc. done.
    + intros b Hb. destruct (Hall b) as (Hbt & Hbtr & Hbnew); [by right |].
      split_and!; [done..|]. simpl.
      intros [Hin | Heq%elem_of_singleton]%elem_of_union; [done |].
      apply Hfresh. rewrite <-Heq. apply list_elem_of_fmap. by exists b.
Qed.

(** X10. Candidates without a title are never stopped by the similarity
    guard.  When a run returns over a batch made of such candidates, whose
    links are non-empty, pairwise different and not in the link column,
    it has appended the batch whole, one row per candidate, oldest (last
    fetched) first. *)
Theorem untitled_batch_all_accepted env worksheet u articles :
  open_sheet env = Ok u →
  requests_get env = Ok (ResultsList articles) →
  (∀ a, a ∈ articles →
     get a "title" = PNone ∧ truthy (get a "link") = true
     ∧ (get a "link" ∉ col_set 6 worksheet)) →
  NoDup ((λ a, get a "link") <$> articles) →
  run_outcome (main env worksheet) = Ok tt →
  ∃ rows,
    run_sheet (main env worksheet) = worksheet ++ rows
    ∧ length rows = length articles
    ∧ row_link <$> rows = reverse ((λ a, get a "link") <$> articles).
Proof.
  intros Ho Hf Hall Hnd Hout.
  destruct (main_returns_steps matcher_ratio netloc env worksheet u _ _ Ho Hf eq_refl Hout)
    as (st & Hst & Hs).
  exists (rows_to_add st). split; [done |].
  assert (Hlinks : row_link <$> rows_to_add st
                   = reverse ((λ a, get a "link") <$> articles)).
  { rewrite (steps_untitled _ _ _ _ _ Hst); simpl.
    - by rewrite fmap_reverse.
    - intros a Ha. apply Hall. by apply elem_of_reverse.
    - rewrite fmap_reverse. by rewrite reverse_Permutation. }
  split; [|done].
  apply (f_equal length) in Hlinks.
  by rewrite length_fmap, length_reverse, length_fmap in Hlinks.
Qed.

(** X11. Two titles that [full_process] and the token sort bring to the
    same string (titles that differ in case, punctuation, spacing or word
    order only) score 100.  A candidate whose title has the normal form
    of a known title is therefore rejected whatever its link, and no two
    rows of an appended batch have titles of the same normal form. *)
Theorem same_normal_form_rejected env worksheet :
  (∀ i st article s t,
     get article "title" = PStr s →
     PStr t ∈ existing_titles st →
     process_and_sort s = process_and_sort t →
     score (PStr s) (PStr t) = 100
     ∧ outcome (loop_body env i st article) = Ok st)
  ∧ ∃ rows,
      run_sheet (main env worksheet) = worksheet ++ rows
      ∧ ∀ j k r1 r2 s1 s2,
          rows !! j = Some r1 → rows !! k = Some r2 → (j < k)%nat →
          row_title r1 = PStr s1 → row_title r2 = PStr s2 →
          process_and_sort s1 ≠ process_and_sort s2.
Proof.
  assert (Hscore : ∀ s t, process_and_sort s = process_and_sort t →
            score (PStr s) (PStr t) = 100).
  { intros s t Heq. simpl. rewrite Heq. apply ratio_refl. }
  split.
  - intros i st article s t Hs Ht Heq. split; [by apply Hscore |].
    apply loop_body_rejects, accepts_false. right; right.
    exists (PStr t). split; [done |]. rewrite Hs, Hscore by done.
    unfold SIMILARITY_THRESHOLD. lia.
  - destruct (main_sheet matcher_ratio netloc env worksheet)
      as (st & [_ _ _ _ _ Hpr] & Hsheet).
    exists (rows_to_add st). split; [done |].
    intros j k r1 r2 s1 s2 H1 H2 Hjk E1 E2 Heq.
    specialize (Hpr j k r1 r2 H1 H2 Hjk). rewrite E1, E2 in Hpr.
    rewrite Hscore in Hpr by done. unfold SIMILARITY_THRESHOLD in Hpr. lia.
Qed.

(** ** What a run reports *)

(** X12. A run past its set-up whose response holds a list (or no
    "results" entry) prints how many articles it fetched as its fourth
    line.  If the run returns, it ends by printing how many rows it
    appended, which is the number by which the sheet has grown. *)
Theorem run_reports_its_counts env worksheet u results articles :
  open_sheet env = Ok u →
  requests_get env = Ok results →
  get_results results = Some articles →
  run_printed (main env worksheet) !! 3%nat
  = Some ("Found " +:+ pretty (length articles)
          +:+ " articles. Processing and checking for duplicates...")
  ∧ (run_outcome (main env worksheet) = Ok tt →
     ∃ rows,
       run_sheet (main env worksheet) = worksheet ++ rows
       ∧ last (run_printed (main env worksheet))
         = Some (match rows with
                 | [] => "Process complete. No new articles to add."
                 | _ => "Process complete. Added " +:+ pretty (length rows)
                        +:+ " new articles."
                 end)).
Proof.
  intros Ho Hf Hr. unfold main. rewrite Ho, Hf, Hr.
  pose proof (process_outcome matcher_ratio netloc env worksheet articles) as Hp.
  destruct (outcome (process env worksheet articles)) as [st|e] eqn:Hout.
  - destruct (rows_to_add st) as [|r rs] eqn:Hrows; simpl.
    + split; [done |]. intros _. exists []. rewrite app_nil_r. split; [done |].
      by rewrite !app_comm_cons, last_snoc.
    + split; [done |]. intros _. eexists. split; [done |].
      by rewrite !app_comm_cons, last_snoc.
  - simpl. split; [done | done].
Qed.

End MoreFacts.

(** ** The further properties at concrete runs *)

Lemma appended_rows_bounded_witness :
  (length (run_sheet (main lcs_ratio simple_netloc ex_env ex_sheet))
   ≤ length ex_sheet
     + length (filter (λ a, truthy (get a "link") = true) ex_batch))%nat.
Proof.
  apply (appended_rows_bounded lcs_ratio simple_netloc ex_env ex_sheet
           (ResultsList ex_batch)).
  reflexivity.
Defined.

Lemma link_column_distinct_for_life_witness :
  NoDup (col_values 6
           (runs lcs_ratio simple_netloc [ex_env; ex_env_again; ex_env_untitled] ex_sheet)).
Proof.
  apply (link_column_distinct_for_life lcs_ratio simple_netloc
           [ex_env; ex_env_again; ex_env_untitled] ex_sheet).
  apply (bool_decide_unpack _). vm_compute. exact I.
Defined.

Lemma known_sets_match_sheet_witness :
  existing_links (ex_state ex_env ex_sheet (reverse ex_batch))
  = col_set 6 (run_sheet (main lcs_ratio simple_netloc ex_env ex_sheet)).
Proof.
  destruct (known_sets_match_sheet lcs_ratio simple_netloc ex_env ex_sheet tt
              (ResultsList ex_batch)
              (ex_state ex_env ex_sheet (reverse ex_batch))) as [Hlinks _].
  - reflexivity.
  - reflexivity.
  - vm_compute. reflexivity.
  - exact Hlinks.
Defined.

Lemma dedup_ignores_summariser_witness :
  ∃ rows1 rows2,
    run_sheet (main lcs_ratio simple_netloc ex_env ex_sheet) = ex_sheet ++ rows1
    ∧ run_sheet (main lcs_ratio simple_netloc ex_env_again ex_sheet) = ex_sheet ++ rows2
    ∧ length rows1 = length rows2
    ∧ Forall2 same_article_cells rows1 rows2.
Proof.
  apply (dedup_ignores_summariser lcs_ratio simple_netloc ex_env ex_env_again
           ex_sheet tt tt (ResultsList ex_batch)); reflexivity.
Defined.

Lemma unconfigured_key_summaries_witness :
  ∃ rows,
    run_sheet (main lcs_ratio simple_netloc ex_env_untitled ex_sheet) = ex_sheet ++ rows
    ∧ ∀ r, r ∈ rows → r !! 2%nat = Some (PStr "Summary not available.").
Proof.
  apply (unconfigured_key_summaries lcs_ratio simple_netloc (PStr "") ex_env_untitled
           ex_sheet); reflexivity.
Defined.

Lemma untitled_batch_all_accepted_witness :
  ∃ rows,
    run_sheet (main lcs_ratio simple_netloc ex_env_untitled ex_sheet) = ex_sheet ++ rows
    ∧ length rows = 2%nat
    ∧ row_link <$> rows = [PStr "https://n.io/3"; PStr "https://n.io/4"].
Proof.
  apply (untitled_batch_all_accepted lcs_ratio simple_netloc ex_env_untitled ex_sheet tt
           [ex_no_title_too; ex_no_title]).
  - reflexivity.
  - reflexivity.
  - intros a Ha.
    apply elem_of_cons in Ha as [-> | Ha];
      [| apply elem_of_cons in Ha as [-> | Ha]; [| by apply not_elem_of_nil in Ha]].
    + split_and!; [vm_compute; reflexivity | vm_compute; reflexivity |].
      apply (bool_decide_unpack _). vm_compute. exact I.
    + split_and!; [vm_compute; reflexivity | vm_compute; reflexivity |].
      apply (bool_decide_unpack _). vm_compute. exact I.
  - apply (bool_decide_unpack _). vm_compute. exact I.
  - vm_compute. reflexivity.
Defined.

Lemma same_normal_form_rejected_witness :
  outcome (loop_body lcs_ratio simple_netloc ex_env 4
             (initial (run_sheet (main lcs_ratio simple_netloc ex_env ex_sheet)))
             ex_shouted)
  = Ok (initial (run_sheet (main lcs_ratio simple_netloc ex_env ex_sheet))).
Proof.
  destruct (same_normal_form_rejected lcs_ratio simple_netloc ex_env ex_sheet)
    as [Hsame _].
  apply (Hsame 4%nat _ ex_shouted "GPT-5: openai LAUNCHES!" "OpenAI launches GPT-5").
  - vm_compute. reflexivity.
  - apply (bool_decide_unpack _). vm_compute. exact I.
  - vm_compute. reflexivity.
Defined.

Lemma run_reports_its_counts_witness :
  run_printed (main lcs_ratio simple_netloc ex_env ex_sheet) !! 3%nat
  = Some ("Found " +:+ pretty (length ex_batch)
          +:+ " articles. Processing and checking for duplicates...")
  ∧ ∃ rows,
      run_sheet (main lcs_ratio simple_netloc ex_env ex_sheet) = ex_sheet ++ rows
      ∧ last (run_printed (main lcs_ratio simple_netloc ex_env ex_sheet))
        = Some (match rows with
                | [] => "Process complete. No new articles to add."
                | _ => "Process complete. Added " +:+ pretty (length rows)
                       +:+ " new articles."
                end).
Proof.
  destruct (run_reports_its_counts lcs_ratio simple_netloc ex_env ex_sheet tt
              (ResultsList ex_batch) ex_batch) as [Hfound Hlast].
  - reflexivity.
  - reflexivity.
  - reflexivity.
  - split; [exact Hfound |]. apply Hlast. vm_compute. reflexivity.
Defined.
